(** * generate_prompts.py: batch text-to-speech prompt generation

    A shallow embedding of [src/generate_prompts.py] and the properties of
    its line reader, its synthesis step and its transcoding step.

    Python [str] values are modelled as lists of Unicode code points, so
    that [str.strip()] can be given its real whitespace set; byte payloads
    are [list byte]; the output store is a finite map from files to
    payloads.  What the script delegates to is an environment record: the
    HTTP endpoint, the opening and writing of a file, the naming of files by
    path strings, the console, the [ffmpeg] child process, the making of
    the output directory and the reading of the input file.  Every one of
    these calls can raise, and the script catches nothing.  Paths follow
    [posixpath]; links and permissions of the file system are left to the
    environment's answers. *)

From Stdlib Require Import NArith ZArith DecimalString DecimalPos Lia.
From stdpp Require Import gmap list strings.

Local Open Scope N_scope.

(** ** Strings as code-point lists *)

Abbreviation str := (list N).
Abbreviation bytes := (list Byte.byte).

(** An ASCII literal as a [str]. *)
Fixpoint str_of (s : string) : str :=
  match s with
  | EmptyString => []
  | String a s' => Ascii.N_of_ascii a :: str_of s'
  end.

Definition COMMA : N := 44.
Definition QUOTE : N := 34.
Definition SLASH : N := 47.
Definition NUL : N := 0.
Definition NEWLINE : N := 10.
Definition RETURN : N := 13.

(** [str.isspace] on a single code point (CPython's
    [_PyUnicode_IsWhitespace]). *)
Definition is_space (c : N) : bool :=
  ((9 <=? c) && (c <=? 13)) || ((28 <=? c) && (c <=? 32))
  || (c =? 133) || (c =? 160) || (c =? 5760)
  || ((8192 <=? c) && (c <=? 8202))
  || (c =? 8232) || (c =? 8233) || (c =? 8239) || (c =? 8287)
  || (c =? 12288).

(** Membership of a code point in the [chars] argument of
    [str.strip(chars)]. *)
Definition in_chars (chars : str) (c : N) : bool := existsb (N.eqb c) chars.

Fixpoint drop_while (p : N -> bool) (s : str) : str :=
  match s with
  | [] => []
  | c :: s' => if p c then drop_while p s' else s
  end.

Definition lstrip_by (p : N -> bool) (s : str) : str := drop_while p s.
Definition rstrip_by (p : N -> bool) (s : str) : str :=
  reverse (drop_while p (reverse s)).

(** The shared body of [str.strip()] and [str.strip(chars)]: skip matching
    code points from the left, then from the right. *)
Definition strip_by (p : N -> bool) (s : str) : str :=
  rstrip_by p (lstrip_by p s).

(** [s.strip()] *)
Definition str_strip (s : str) : str := strip_by is_space s.

(** [s.strip(chars)] *)
Definition str_strip_chars (chars : str) (s : str) : str :=
  strip_by (in_chars chars) s.

(** [c in s] for a one-character [c]. *)
Definition str_in (c : N) (s : str) : bool := existsb (N.eqb c) s.

(** The cut at the first occurrence of [sep], when there is one. *)
Fixpoint split_first (sep : N) (s : str) : option (str * str) :=
  match s with
  | [] => None
  | c :: s' =>
      if c =? sep then Some ([], s')
      else match split_first sep s' with
           | Some (a, b) => Some (c :: a, b)
           | None => None
           end
  end.

(** [s.split(sep, 1)] for a one-character [sep]: one element when [sep]
    does not occur, two otherwise. *)
Definition str_split1 (sep : N) (s : str) : list str :=
  match split_first sep s with
  | Some (a, b) => [a; b]
  | None => [s]
  end.

(** [s.startswith("/")] and [s.endswith("/")] *)
Definition starts_with_sep (s : str) : bool :=
  match s with
  | c :: _ => c =? SLASH
  | [] => false
  end.

Definition ends_with_sep (s : str) : bool :=
  match last s with
  | Some c => c =? SLASH
  | None => false
  end.

(** [os.path.join(a, b)] (posixpath, two arguments): an absolute [b]
    replaces [a]; otherwise [b] is appended, after a separator unless [a] is
    empty or already ends with one. *)
Definition os_path_join (a b : str) : str :=
  if starts_with_sep b then b
  else if match a with [] => true | _ => ends_with_sep a end then a ++ b
  else a ++ SLASH :: b.

(** [str(n)] for an [int]. *)
Definition str_of_int (n : Z) : str :=
  str_of (NilZero.string_of_int (Z.to_int n)).

(** Text-mode iteration over a file: universal newlines, then one item per
    line, each keeping its terminator. *)
Fixpoint universal_newlines (s : str) : str :=
  match s with
  | [] => []
  | c :: s' =>
      if c =? RETURN then
        match s' with
        | d :: s'' =>
            if d =? NEWLINE then NEWLINE :: universal_newlines s''
            else NEWLINE :: universal_newlines s'
        | [] => [NEWLINE]
        end
      else c :: universal_newlines s'
  end.

Fixpoint lines_from (cur : str) (s : str) : list str :=
  match s with
  | [] => match cur with [] => [] | _ => [reverse cur] end
  | c :: s' =>
      if c =? NEWLINE then reverse (c :: cur) :: lines_from [] s'
      else lines_from (c :: cur) s'
  end.

Definition file_lines (contents : str) : list str :=
  lines_from [] (universal_newlines contents).

(** ** The line reader (main loop, lines 83-88) *)

Record PromptEntry := { identifier : str; text : str }.

Inductive Exn :=
| ValueError
| ConnectionError
| OSError
| FileNotFoundError
| CalledProcessError
| UnicodeEncodeError
| UnicodeDecodeError.

(** [line = line.strip().strip(q)], with [q] the one-character string made
    of the double quote. *)
Definition clean_line (line : str) : str :=
  str_strip_chars [QUOTE] (str_strip line).

(** Lines 86-88 and the two [strip] calls of line 91: the cleaned line is
    tested for a comma, split once, and the two parts are unpacked and
    trimmed.  [inl] is an exception of the tuple unpacking, [inr None] a
    skipped line. *)
Definition split_entry (line : str) : Exn + option PromptEntry :=
  if str_in COMMA line then
    match str_split1 COMMA line with
    | [name; text] =>
        inr (Some {| identifier := str_strip name; text := str_strip text |})
    | _ => inl ValueError
    end
  else inr None.

(** One iteration of the reader. *)
Definition parse_line (line : str) : Exn + option PromptEntry :=
  split_entry (clean_line line).

(** ** The world the script runs in *)

(** A request as [requests.post] receives it; [json] is the dictionary that
    becomes the JSON body, its values being strings here. *)
Record Request := {
  url : str;
  json : list (str * str);
  headers : list (str * str)
}.

Module Response.
Record t := { status_code : Z; content : bytes; text : str }.
End Response.

(** Where [subprocess.run] sends a stream of the child. *)
Inductive Redirect := INHERIT | DEVNULL.

Record World := {
  files : gmap str bytes;       (* file |-> contents *)
  console : list str;           (* what reached the terminal, in order *)
  sent : list Request;          (* HTTP requests issued, in order *)
  spawned : list (list str)     (* argument vectors executed, in order *)
}.

(** What a child process did before it exited. *)
Record Child := {
  returncode : Z;
  child_files : gmap str bytes;
  child_stdout : str;
  child_stderr : str
}.

(** What becomes of [with open(path, "wb") as f: f.write(data)] once the
    path is known to be a valid one: the file cannot be opened; it is opened,
    hence truncated, and the writing breaks off after [n] bytes; or all is
    written. *)
Inductive Opening := OpenFails | WriteStops (n : nat) | WriteCompletes.

(** What becomes of reading a text file: it cannot be opened, or its
    iterator delivers [contents] and then ends, normally or with a [failure]
    such as a decoding error met further on in the file. *)
Inductive Reading :=
| CannotRead (e : Exn)
| Delivers (contents : str) (failure : option Exn).

(** The collaborators.  [None] stands for the call raising instead of
    returning: no response from the endpoint, no executable to start.
    [realpath] is the file a path string names; the store is keyed by it, so
    that two spellings of one file are one entry of the store.  The naming is
    taken to be the same during the whole run. *)
Record Env := {
  http_post : World -> Request -> option Response.t;
  open_wb : World -> str -> Opening;
  exec : World -> list str -> option Child;
  stdout_accepts : World -> str -> bool;
  realpath : str -> str;
  makedirs : World -> str -> option Exn;
  open_r : World -> str -> Reading
}.

Inductive Outcome (A : Type) :=
| Returns (a : A) (w : World)
| Raises (e : Exn) (w : World).
Arguments Returns {A} a w.
Arguments Raises {A} e w.

Definition M (A : Type) : Type := World -> Outcome A.

Definition ret {A} (a : A) : M A := fun w => Returns a w.
Definition bind {A B} (m : M A) (k : A -> M B) : M B :=
  fun w =>
    match m w with
    | Returns a w' => k a w'
    | Raises e w' => Raises e w'
    end.

Notation "'let!' x ':=' m 'in' k" := (bind m (fun x => k))
  (at level 10, x name, m at level 100, k at level 200).
Notation "m '>>' k" := (bind m (fun _ => k))
  (at level 90, right associativity).

Definition with_files (w : World) (fs : gmap str bytes) : World :=
  {| files := fs; console := console w; sent := sent w; spawned := spawned w |}.
Definition with_console (w : World) (c : list str) : World :=
  {| files := files w; console := c; sent := sent w; spawned := spawned w |}.
Definition with_sent (w : World) (l : list Request) : World :=
  {| files := files w; console := console w; sent := l; spawned := spawned w |}.

Section Script.
Context (E : Env).

(** [print(s)]: the line reaches the console unless standard output cannot
    encode it. *)
Definition print (s : str) : M unit :=
  fun w =>
    if stdout_accepts E w s
    then Returns tt (with_console w (console w ++ [s]))
    else Raises UnicodeEncodeError w.

(** [os.remove(path)] *)
Definition os_remove (path : str) : M unit :=
  fun w =>
    if str_in NUL path then Raises ValueError w
    else
      match files w !! realpath E path with
      | Some _ => Returns tt (with_files w (delete (realpath E path) (files w)))
      | None => Raises FileNotFoundError w
      end.

(** [with open(path, "wb") as f: f.write(data)]: a path with a null
    character is refused before the file system is asked. *)
Definition write_file (path : str) (data : bytes) : M unit :=
  fun w =>
    if str_in NUL path then Raises ValueError w
    else
      match open_wb E w path with
      | OpenFails => Raises OSError w
      | WriteStops n =>
          Raises OSError
            (with_files w (<[realpath E path := take n data]> (files w)))
      | WriteCompletes =>
          Returns tt (with_files w (<[realpath E path := data]> (files w)))
      end.

(** [requests.post(url, json=payload, headers=headers)] *)
Definition requests_post (u : str) (payload : list (str * str))
    (hs : list (str * str)) : M Response.t :=
  fun w =>
    let r := {| url := u; json := payload; headers := hs |} in
    let w' := with_sent w (sent w ++ [r]) in
    match http_post E w r with
    | Some resp => Returns resp w'
    | None => Raises ConnectionError w'
    end.

(** [subprocess.run(args, stdout=..., stderr=..., check=...)]; the value
    is the [returncode] of the completed process. *)
Definition subprocess_run (args : list str) (stdout stderr : Redirect)
    (check : bool) : M Z :=
  fun w =>
    match exec E w args with
    | None => Raises FileNotFoundError w
    | Some ch =>
        let shown (r : Redirect) (s : str) :=
          match r with INHERIT => [s] | DEVNULL => [] end in
        let w' :=
          {| files := child_files ch;
             console := console w ++ shown stdout (child_stdout ch)
                                  ++ shown stderr (child_stderr ch);
             sent := sent w;
             spawned := spawned w ++ [args] |} in
        if check && negb (returncode ch =? 0)%Z
        then Raises CalledProcessError w'
        else Returns (returncode ch) w'
    end.

(** *** Configuration *)
Definition API_KEY : str := str_of "APICODEHERE".
Definition VOICE_MODEL : str := str_of "aura-2-thalia-en".
Definition INPUT_CSV : str := str_of "prompts.csv".
Definition OUTPUT_DIR : str := str_of "output_wav".

(** *** convert_to_ulaw *)
Definition convert_to_ulaw (input_path output_path : str) : M unit :=
  let command :=
    [ str_of "ffmpeg";
      str_of "-y";
      str_of "-i"; input_path;
      str_of "-ar"; str_of "8000";
      str_of "-ac"; str_of "1";
      str_of "-f"; str_of "wav";
      str_of "-acodec"; str_of "pcm_mulaw";
      output_path ] in
  subprocess_run command DEVNULL DEVNULL false >> ret tt.

(** *** synthesize_prompt *)
Definition HEADPHONE : N := 127911.

Definition synthesize_prompt (prompt_text filename : str) : M unit :=
  let url :=
    str_of "https://api.deepgram.com/v1/speak?model=" ++ VOICE_MODEL
    ++ str_of "&encoding=linear16&sample_rate=16000" in
  let headers :=
    [ (str_of "Authorization", str_of "Token " ++ API_KEY);
      (str_of "Content-Type", str_of "application/json") ] in
  let payload := [ (str_of "text", prompt_text) ] in
  let! response := requests_post url payload headers in
  if (Response.status_code response =? 200)%Z then
    let temp_path :=
      os_path_join OUTPUT_DIR (filename ++ str_of "_temp.wav") in
    let final_path :=
      os_path_join OUTPUT_DIR (filename ++ str_of ".wav") in
    write_file temp_path (Response.content response) >>
    convert_to_ulaw temp_path final_path >>
    os_remove temp_path >>
    print (str_of "[" ++ HEADPHONE :: str_of "] Saved Studio-ready: "
           ++ final_path)
  else
    print (str_of "[!] Error for " ++ filename ++ str_of ": "
           ++ str_of_int (Response.status_code response) ++ str_of " - "
           ++ Response.text response).

(** *** The main loop *)
Definition process_line (line : str) : M unit :=
  match parse_line line with
  | inl e => fun w => Raises e w
  | inr None => ret tt
  | inr (Some entry) => synthesize_prompt (text entry) (identifier entry)
  end.

Fixpoint main_loop (lines : list str) : M unit :=
  match lines with
  | [] => ret tt
  | line :: rest => process_line line >> main_loop rest
  end.

(** The loop of the [with open(INPUT_CSV, ...)] block over the text its
    iterator delivers. *)
Definition main (contents : str) : M unit :=
  main_loop (file_lines contents).

(** The module from line 17 on: [os.makedirs(OUTPUT_DIR, exist_ok=True)],
    then the opening of the input file and the loop over what its iterator
    delivers; a failure of the iterator surfaces once the lines delivered
    before it have been processed.  The store has no directories: whether
    they can be made, and whether a path can be opened, are answers of the
    environment. *)
Definition script : M unit :=
  fun w =>
    match makedirs E w OUTPUT_DIR with
    | Some e => Raises e w
    | None =>
        match open_r E w INPUT_CSV with
        | CannotRead e => Raises e w
        | Delivers contents failure =>
            match main contents w with
            | Returns _ w' =>
                match failure with
                | Some e => Raises e w'
                | None => Returns tt w'
                end
            | Raises e w' => Raises e w'
            end
        end
    end.

End Script.

(** ** Vocabulary of the statements *)

(** No code point at either end of [s] satisfies [p]. *)
Definition edge_free (p : N -> bool) (s : str) : Prop :=
  (forall c, head s = Some c -> p c = false) /\
  (forall c, last s = Some c -> p c = false).

(** [r] is [s] trimmed: [r] is what stands between two runs of whitespace
    that make up the rest of [s], and has no whitespace at either end. *)
Definition trim_of (s r : str) : Prop :=
  edge_free is_space r /\
  exists a b,
    s = a ++ r ++ b /\ forallb is_space a = true /\ forallb is_space b = true.

(** Line 83 removes whitespace and double quotes; a string is bare when it
    has neither at its ends. *)
Definition bare (s : str) : Prop :=
  edge_free (fun c => is_space c || in_chars [QUOTE] c) s.

(** A code point that no [strip] of the reader removes. *)
Definition plain (c : N) : bool := negb (is_space c) && negb (c =? QUOTE).

Definition starts_plain (s : str) : bool :=
  match s with
  | c :: _ => plain c
  | [] => false
  end.

Definition ends_plain (s : str) : bool :=
  match last s with
  | Some c => plain c
  | None => false
  end.

(** [sub] occurs in [s] as a contiguous run. *)
Definition occurs_in (sub s : str) : Prop :=
  exists pre post, s = pre ++ sub ++ post.

(** The reading of line 83 in which one enclosing pair of quotes is removed:
    a cleaned line that begins and ends with a quote loses that pair, any
    other line is unchanged. *)
Definition spec_unquote_one_layer (s : str) : str :=
  match s with
  | c :: s' =>
      if c =? QUOTE then
        match reverse s' with
        | d :: t => if d =? QUOTE then reverse t else s
        | [] => s
        end
      else s
  | [] => s
  end.

Definition spec_parse_line (line : str) : Exn + option PromptEntry :=
  split_entry (spec_unquote_one_layer (str_strip line)).

(** Reading a decimal numeral, as [int(s)] does on an optional minus sign
    followed by ASCII digits. *)
Definition digit_of (c : N) : option Z :=
  if (48 <=? c) && (c <=? 57) then Some (Z.of_N (c - 48)) else None.

Fixpoint digits_value (acc : Z) (s : str) : option Z :=
  match s with
  | [] => Some acc
  | c :: s' =>
      match digit_of c with
      | Some d => digits_value (10 * acc + d) s'
      | None => None
      end
  end.

Definition int_of_str (s : str) : option Z :=
  match s with
  | [] => None
  | c :: s' =>
      if c =? 45 then
        match s' with
        | [] => None
        | _ => option_map Z.opp (digits_value 0 s')
        end
      else digits_value 0 s
  end.

(** [path] is a single name directly inside the directory [dir]. *)
Definition directly_inside (dir path : str) : Prop :=
  exists name,
    path = dir ++ SLASH :: name /\
    name <> [] /\ name <> str_of "." /\ name <> str_of ".." /\
    str_in SLASH name = false.

(** The two paths [synthesize_prompt] derives from a file name. *)
Definition temp_path_of (filename : str) : str :=
  os_path_join OUTPUT_DIR (filename ++ str_of "_temp.wav").
Definition final_path_of (filename : str) : str :=
  os_path_join OUTPUT_DIR (filename ++ str_of ".wav").

(** The request [synthesize_prompt] issues for a prompt text. *)
Definition request_of (prompt_text : str) : Request :=
  {| url := str_of "https://api.deepgram.com/v1/speak?model=aura-2-thalia-en&encoding=linear16&sample_rate=16000";
     json := [ (str_of "text", prompt_text) ];
     headers := [ (str_of "Authorization", str_of "Token APICODEHERE");
                  (str_of "Content-Type", str_of "application/json") ] |}.

(** The argument vector [convert_to_ulaw] executes. *)
Definition ffmpeg_args (input_path output_path : str) : list str :=
  [ str_of "ffmpeg"; str_of "-y"; str_of "-i"; input_path;
    str_of "-ar"; str_of "8000"; str_of "-ac"; str_of "1";
    str_of "-f"; str_of "wav"; str_of "-acodec"; str_of "pcm_mulaw";
    output_path ].

(** The two console lines. *)
Definition success_notice (final_path : str) : str :=
  str_of "[" ++ HEADPHONE :: str_of "] Saved Studio-ready: " ++ final_path.
Definition error_notice (filename : str) (resp : Response.t) : str :=
  str_of "[!] Error for " ++ filename ++ str_of ": "
  ++ str_of_int (Response.status_code resp) ++ str_of " - "
  ++ Response.text resp.

(** The world once a request has been issued, and once a file has been
    written. *)
Definition after_request (w : World) (r : Request) : World :=
  with_sent w (sent w ++ [r]).
Definition after_write (w : World) (path : str) (data : bytes) : World :=
  with_files w (<[path := data]> (files w)).

(** ** Concrete collaborators *)

Definition empty_world : World :=
  {| files := ∅; console := []; sent := []; spawned := [] |}.

Definition payload : bytes := [Byte.x52; Byte.x49; Byte.x46; Byte.x46].

Definition respond (status : Z) (body : bytes) (t : str) : Response.t :=
  {| Response.status_code := status; Response.content := body;
     Response.text := t |}.

(** The fourth and the last argument of an [ffmpeg_args] vector. *)
Definition input_of (args : list str) : str := default [] (args !! 3%nat).
Definition output_of (args : list str) : str := default [] (last args).

(** Collaborators given by an endpoint, an answer to every opening for
    writing and a transcoder; the console accepts every line, every path
    names the file of its own spelling, the directory can be made and the
    input file is empty. *)
Definition env_of (post : World -> Request -> option Response.t)
    (opening : Opening) (run : World -> list str -> option Child) : Env :=
  {| http_post := post;
     open_wb := fun _ _ => opening;
     exec := run;
     stdout_accepts := fun _ _ => true;
     realpath := fun p => p;
     makedirs := fun _ _ => None;
     open_r := fun _ _ => Delivers [] None |}.

Definition answers_200 : World -> Request -> option Response.t :=
  fun _ _ => Some (respond 200 payload []).

(** An endpoint that rejects every request, as in the simulated failure. *)
Definition E_unauthorized : Env :=
  env_of (fun _ _ => Some (respond 401 [] (str_of "unauthorized")))
    WriteCompletes (fun _ _ => None).

(** An endpoint that answers 200 and a transcoder that writes its
    destination from its input and exits with 0. *)
Definition E_ok : Env :=
  env_of answers_200 WriteCompletes
    (fun w args =>
       Some {| returncode := 0;
               child_files :=
                 <[output_of args := default [] (files w !! input_of args)]>
                   (files w);
               child_stdout := [];
               child_stderr := [] |}).



(** An installation without the transcoder. *)
Definition E_no_ffmpeg : Env :=
  env_of answers_200 WriteCompletes (fun _ _ => None).

(** A console that encodes ASCII only, with the rejecting endpoint. *)
Definition E_ascii_console : Env :=
  {| http_post := fun _ _ => Some (respond 401 [] (str_of "unauthorized"));
     open_wb := fun _ _ => WriteCompletes;
     exec := fun _ _ => None;
     stdout_accepts := fun _ s => forallb (fun c => c <? 128) s;
     realpath := fun p => p;
     makedirs := fun _ _ => None;
     open_r := fun _ _ => Delivers [] None |}.

(** A file system on which [./a] in the output directory is the file [a]
    there, for the two paths of the identifier [a]. *)
Definition dot_alias (p : str) : str :=
  if decide (p = str_of "output_wav/./a.wav")
  then str_of "output_wav/a.wav"
  else if decide (p = str_of "output_wav/./a_temp.wav")
  then str_of "output_wav/a_temp.wav"
  else p.

Definition E_dot : Env :=
  {| http_post := fun _ r =>
       Some (respond 200
               (if decide (json r = [(str_of "text", str_of "one")])
                then [Byte.x01] else [Byte.x02]) []);
     open_wb := fun _ _ => WriteCompletes;
     exec := fun w args =>
       Some {| returncode := 0;
               child_files :=
                 <[dot_alias (output_of args)
                   := default [] (files w !! dot_alias (input_of args))]>
                   (files w);
               child_stdout := [];
               child_stderr := [] |};
     stdout_accepts := fun _ _ => true;
     realpath := dot_alias;
     makedirs := fun _ _ => None;
     open_r := fun _ _ => Delivers [] None |}.

(** A store in which an earlier run left the final artifact of [a]. *)
Definition stale_world : World :=
  {| files := {[ final_path_of (str_of "a") := [Byte.x00] ]};
     console := []; sent := []; spawned := [] |}.

(** ** Vocabulary of the batch statements *)

(** The entries of a sequence of lines, in line order: what the main loop
    hands to [synthesize_prompt]. *)
Fixpoint entries_of (lines : list str) : list PromptEntry :=
  match lines with
  | [] => []
  | line :: rest =>
      match parse_line line with
      | inr (Some e) => e :: entries_of rest
      | _ => entries_of rest
      end
  end.

(** The world a computation ends in, however it ends. *)
Definition final_world {A} (o : Outcome A) : World :=
  match o with
  | Returns _ w => w
  | Raises _ w => w
  end.


(** A transcoder that changes no file but its destination. *)
Definition writes_only_destination (E : Env) : Prop :=
  forall w args ch,
    exec E w args = Some ch ->
    forall k, k <> realpath E (output_of args) ->
      child_files ch !! k = files w !! k.

(** An endpoint that answers every request with a status other than 200. *)
Definition always_refuses (E : Env) : Prop :=
  forall w r,
    exists resp,
      http_post E w r = Some resp /\ Response.status_code resp <> 200%Z.

(** A console that can encode every line. *)
Definition console_accepts_all (E : Env) : Prop :=
  forall w s, stdout_accepts E w s = true.

(** Either of the two characters line 83 removes. *)
Definition space_or_quote (c : N) : bool := is_space c || in_chars [QUOTE] c.

(** ** Further concrete collaborators *)

(** No network: every request goes unanswered. *)
Definition E_offline : Env :=
  env_of (fun _ _ => None) WriteCompletes (fun _ _ => None).



(** A transcoder that moves its input to its destination. *)
Definition E_moving : Env :=
  env_of answers_200 WriteCompletes
    (fun w args =>
       Some {| returncode := 0;
               child_files :=
                 <[output_of args := default [] (files w !! input_of args)]>
                   (delete (input_of args) (files w));
               child_stdout := [];
               child_stderr := [] |}).

(** A missing input file. *)
Definition E_no_input : Env :=
  {| http_post := answers_200;
     open_wb := fun _ _ => WriteCompletes;
     exec := exec E_ok;
     stdout_accepts := fun _ _ => true;
     realpath := fun p => p;
     makedirs := fun _ _ => None;
     open_r := fun _ _ => CannotRead FileNotFoundError |}.

(** An input file whose first line decodes and whose rest does not. *)
Definition E_bad_utf8 : Env :=
  {| http_post := answers_200;
     open_wb := fun _ _ => WriteCompletes;
     exec := exec E_ok;
     stdout_accepts := fun _ _ => true;
     realpath := fun p => p;
     makedirs := fun _ _ => None;
     open_r := fun _ _ =>
       Delivers (str_of "a,one" ++ [NEWLINE]) (Some UnicodeDecodeError) |}.

(** * Facts about the string operations *)

Section StripFacts.
Variable p : N -> bool.

Lemma forallb_elem_of (s : str) :
  forallb p s = true <-> forall c, c ∈ s -> p c = true.
Proof.
  rewrite forallb_forall. split; intros H c Hc; apply H.
  - by apply list_elem_of_In.
  - by apply list_elem_of_In in Hc.
Qed.

Lemma forallb_reverse (s : str) : forallb p (reverse s) = forallb p s.
Proof.
  apply eq_true_iff_eq. rewrite !forallb_elem_of.
  split; intros H c Hc; apply H; by apply elem_of_reverse.
Qed.

Lemma drop_while_app (a s : str) :
  drop_while p (a ++ s) =
  if forallb p a then drop_while p s else drop_while p a ++ s.
Proof.
  induction a as [|x a IH]; simpl; [done|].
  destruct (p x); simpl; [exact IH | done].
Qed.

Lemma drop_while_all (a : str) : forallb p a = true -> drop_while p a = [].
Proof.
  intros Ha. rewrite <- (app_nil_r a), drop_while_app, Ha. done.
Qed.

Lemma drop_while_head (s : str) :
  (forall c, head s = Some c -> p c = false) -> drop_while p s = s.
Proof.
  destruct s as [|x s]; simpl; [done|].
  intros H. by rewrite (H x).
Qed.

Lemma drop_while_head_false (s : str) (c : N) :
  head (drop_while p s) = Some c -> p c = false.
Proof.
  induction s as [|x s IH]; simpl; [done|].
  destruct (p x) eqn:Hx; [exact IH|].
  simpl. by intros [= <-].
Qed.

Lemma drop_while_nil (s : str) :
  drop_while p s = [] <-> forallb p s = true.
Proof.
  induction s as [|x s IH]; simpl; [done|].
  destruct (p x); simpl; [exact IH|]. split; discriminate.
Qed.

Lemma elem_of_drop_while (c : N) (s : str) :
  p c = false -> c ∈ drop_while p s <-> c ∈ s.
Proof.
  intros Hc. induction s as [|x s IH]; simpl; [done|].
  destruct (p x) eqn:Hx; [|done].
  rewrite IH, elem_of_cons. split; [by right|].
  intros [->|H]; [congruence | done].
Qed.

Lemma strip_by_id (s : str) : edge_free p s -> strip_by p s = s.
Proof.
  intros [Hh Hl]. unfold strip_by, rstrip_by, lstrip_by.
  rewrite (drop_while_head s Hh), drop_while_head.
  - apply reverse_involutive.
  - intros c. rewrite head_reverse. apply Hl.
Qed.

Lemma strip_by_app (a s b : str) :
  forallb p a = true -> forallb p b = true ->
  strip_by p (a ++ s ++ b) = strip_by p s.
Proof.
  intros Ha Hb. unfold strip_by, rstrip_by, lstrip_by.
  rewrite drop_while_app, Ha, drop_while_app.
  destruct (forallb p s) eqn:Hs.
  - by rewrite (drop_while_all b Hb), (drop_while_all s Hs).
  - rewrite reverse_app, drop_while_app, forallb_reverse, Hb. done.
Qed.

Lemma strip_by_nil (s : str) :
  strip_by p s = [] <-> forallb p s = true.
Proof.
  unfold strip_by, rstrip_by, lstrip_by. split.
  - intros H. apply drop_while_nil.
    apply (f_equal reverse) in H.
    rewrite reverse_involutive, reverse_nil in H.
    apply drop_while_nil in H. rewrite forallb_reverse in H.
    destruct (drop_while p s) as [|x t] eqn:Ht; [done|].
    assert (p x = false) as Hx.
    { apply (drop_while_head_false s). by rewrite Ht. }
    simpl in H. by rewrite Hx in H.
  - intros H. by rewrite (drop_while_all s H).
Qed.

Lemma elem_of_strip_by (c : N) (s : str) :
  p c = false -> c ∈ strip_by p s <-> c ∈ s.
Proof.
  intros Hc. unfold strip_by, rstrip_by, lstrip_by.
  by rewrite elem_of_reverse, (elem_of_drop_while c _ Hc), elem_of_reverse,
    (elem_of_drop_while c _ Hc).
Qed.

(** Padding an edge-free string with code points that do not satisfy [p]
    keeps it edge-free. *)
Lemma edge_free_pad (u s v : str) :
  forallb (fun c => negb (p c)) u = true ->
  forallb (fun c => negb (p c)) v = true ->
  edge_free p s -> edge_free p (u ++ s ++ v).
Proof.
  intros Hu Hv [Hh Hl].
  rewrite forallb_forall in Hu. rewrite forallb_forall in Hv.
  split; intros c Hc.
  - destruct u as [|x u]; simpl in Hc.
    + destruct s as [|y s]; simpl in Hc.
      * destruct v as [|z v]; simpl in Hc; [done|]. injection Hc as ->.
        apply negb_true_iff, Hv. by left.
      * apply Hh. done.
    + injection Hc as ->. apply negb_true_iff, Hu. by left.
  - rewrite !last_app in Hc.
    destruct (last v) as [z|] eqn:Ev.
    + injection Hc as ->. apply negb_true_iff, Hv.
      apply list_elem_of_In. by apply last_Some_elem_of.
    + destruct (last s) as [y|] eqn:Es.
      * injection Hc as ->. by apply Hl.
      * apply negb_true_iff, Hu.
        apply list_elem_of_In. by apply last_Some_elem_of.
Qed.
End StripFacts.

Section StripShape.
Variable p : N -> bool.

Lemma drop_while_split (s : str) :
  exists a, s = a ++ drop_while p s /\ forallb p a = true.
Proof.
  induction s as [|x s (a & Ha & Hp)]; simpl.
  - by exists [].
  - destruct (p x) eqn:Hx.
    + exists (x :: a). simpl. rewrite Hx, Hp. by rewrite <- Ha.
    + by exists [].
Qed.

Lemma last_drop_while (s : str) (c : N) :
  last (drop_while p s) = Some c -> last s = Some c.
Proof.
  destruct (drop_while_split s) as (a & Ha & _).
  intros H. rewrite Ha, last_app, H. done.
Qed.

Lemma strip_by_split (s : str) :
  exists a b,
    s = a ++ strip_by p s ++ b /\ forallb p a = true /\ forallb p b = true.
Proof.
  unfold strip_by, rstrip_by, lstrip_by.
  destruct (drop_while_split s) as (a & Ha & Hpa).
  destruct (drop_while_split (reverse (drop_while p s))) as (b & Hb & Hpb).
  exists a, (reverse b). split; [|split; [done | by rewrite forallb_reverse]].
  rewrite <- reverse_app, <- Hb, reverse_involutive. done.
Qed.

Lemma strip_by_edge_free (s : str) : edge_free p (strip_by p s).
Proof.
  unfold strip_by, rstrip_by, lstrip_by. split; intros c.
  - rewrite head_reverse. intros H. apply last_drop_while in H.
    rewrite last_reverse in H. by apply drop_while_head_false in H.
  - rewrite last_reverse. apply drop_while_head_false.
Qed.

Lemma strip_by_idem (s : str) : strip_by p (strip_by p s) = strip_by p s.
Proof. apply strip_by_id, strip_by_edge_free. Qed.
End StripShape.

Lemma forallb_weaken (p q : N -> bool) (s : str) :
  (forall c, p c = true -> q c = true) ->
  forallb p s = true -> forallb q s = true.
Proof.
  intros H. rewrite !forallb_forall. intros Hs c Hc. by apply H, Hs.
Qed.

Lemma forallb_app_true (p : N -> bool) (a b : str) :
  forallb p a = true -> forallb p b = true -> forallb p (a ++ b) = true.
Proof. intros Ha Hb. rewrite forallb_app, Ha, Hb. done. Qed.

Lemma str_strip_trim_of (s : str) : trim_of s (str_strip s).
Proof.
  split; [apply strip_by_edge_free|].
  destruct (strip_by_split is_space s) as (a & b & H); eauto.
Qed.

(** Trimming is the only way to satisfy [trim_of]. *)
Lemma trim_of_unique (s r : str) : trim_of s r -> r = str_strip s.
Proof.
  intros (Hr & a & b & -> & Ha & Hb). unfold str_strip.
  by rewrite strip_by_app, strip_by_id.
Qed.

Lemma str_in_elem_of (c : N) (s : str) : str_in c s = true <-> c ∈ s.
Proof.
  unfold str_in. rewrite existsb_exists. split.
  - intros (x & Hx & Heq). apply N.eqb_eq in Heq as ->.
    by apply list_elem_of_In.
  - intros H. exists c. split; [by apply list_elem_of_In | apply N.eqb_refl].
Qed.

Lemma str_in_not_elem_of (c : N) (s : str) : str_in c s = false <-> c ∉ s.
Proof.
  rewrite <- str_in_elem_of. destruct (str_in c s); split; congruence.
Qed.

Lemma split_first_Some (sep : N) (s a b : str) :
  split_first sep s = Some (a, b) <-> s = a ++ sep :: b /\ sep ∉ a.
Proof.
  revert a. induction s as [|x s IH]; intros a; simpl.
  - split; [done|]. intros [H _]. by destruct a.
  - destruct (N.eqb_spec x sep) as [->|Hne].
    + split.
      * intros [= <- <-]. split; [done | apply not_elem_of_nil].
      * intros [H Ha]. destruct a as [|y a]; simpl in H.
        -- by injection H as ->.
        -- injection H as -> _. exfalso. apply Ha. left.
    + destruct (split_first sep s) as [[a' b']|] eqn:Hs.
      * split.
        -- intros [= <- <-]. destruct (proj1 (IH a') eq_refl) as [-> Ha'].
           split; [done|]. rewrite not_elem_of_cons. split; [congruence | done].
        -- intros [H Ha]. destruct a as [|y a]; simpl in H.
           { injection H as -> _. done. }
           injection H as -> ->. apply not_elem_of_cons in Ha as [_ Ha].
           assert (Some (a', b') = Some (a, b)) as [= -> ->]; [|done].
           apply IH. done.
      * split; [done|]. intros [H Ha]. destruct a as [|y a]; simpl in H.
        { injection H as -> _. done. }
        injection H as -> ->. apply not_elem_of_cons in Ha as [_ Ha].
        assert (None = Some (a, b)) as Habs; [|done].
        apply IH. done.
Qed.

Lemma split_first_elem_of (sep : N) (s : str) :
  sep ∈ s -> exists a b, split_first sep s = Some (a, b).
Proof.
  induction s as [|x s IH]; simpl.
  - intros H. by apply elem_of_nil in H.
  - intros H. destruct (N.eqb_spec x sep) as [->|Hne]; [by eauto|].
    apply elem_of_cons in H as [->|H]; [done|].
    destruct (IH H) as (a & b & ->). eauto.
Qed.

Lemma is_space_COMMA : is_space COMMA = false.
Proof. reflexivity. Qed.

Lemma in_chars_QUOTE (c : N) : in_chars [QUOTE] c = (c =? QUOTE).
Proof. unfold in_chars. simpl. by rewrite orb_false_r. Qed.

(** Cleaning a line neither adds nor removes a comma. *)
Lemma clean_line_COMMA (line : str) : COMMA ∈ clean_line line <-> COMMA ∈ line.
Proof.
  unfold clean_line, str_strip_chars, str_strip.
  rewrite elem_of_strip_by by reflexivity.
  apply elem_of_strip_by. reflexivity.
Qed.

(** The reader on a cleaned line that has a comma. *)
Lemma parse_line_split (line pre post : str) :
  clean_line line = pre ++ COMMA :: post -> COMMA ∉ pre ->
  parse_line line =
  inr (Some {| identifier := str_strip pre; text := str_strip post |}).
Proof.
  intros Hc Hpre. unfold parse_line, split_entry, str_split1.
  assert (str_in COMMA (clean_line line) = true) as ->.
  { apply str_in_elem_of. rewrite Hc. set_solver. }
  rewrite Hc in *.
  by rewrite (proj2 (split_first_Some COMMA _ pre post) (conj eq_refl Hpre)).
Qed.

(** The reader on a cleaned line that has none. *)
Lemma parse_line_skip (line : str) :
  COMMA ∉ clean_line line -> parse_line line = inr None.
Proof.
  intros H. unfold parse_line, split_entry.
  by rewrite (proj2 (str_in_not_elem_of _ _) H).
Qed.

(** The tuple unpacking of the reader never fails. *)
Lemma parse_line_total (line : str) : exists r, parse_line line = inr r.
Proof.
  destruct (decide (COMMA ∈ clean_line line)) as [H|H].
  - destruct (split_first_elem_of _ _ H) as (a & b & Hs).
    apply split_first_Some in Hs as [Hc Ha].
    eexists. by apply parse_line_split.
  - eexists. by apply parse_line_skip.
Qed.

(** * The line reader *)

Lemma forallb_replicate (p : N -> bool) (n : nat) (c : N) :
  p c = true -> forallb p (replicate n c) = true.
Proof. intros H. induction n as [|n IH]; simpl; [done|]. by rewrite H, IH. Qed.

Lemma edge_free_weaken (p q : N -> bool) (s : str) :
  (forall c, p c = false -> q c = false) -> edge_free p s -> edge_free q s.
Proof. intros H [Hh Hl]. split; intros c Hc; apply H; auto. Qed.

Lemma bare_space (s : str) : bare s -> edge_free is_space s.
Proof.
  apply edge_free_weaken. intros c H. by apply orb_false_iff in H as [? _].
Qed.

Lemma bare_quote (s : str) : bare s -> edge_free (in_chars [QUOTE]) s.
Proof.
  apply edge_free_weaken. intros c H. by apply orb_false_iff in H as [_ ?].
Qed.

(** Cleaning removes surrounding whitespace, then every quote at either
    end, and nothing else. *)
Lemma clean_line_layers (a b body : str) (n m : nat) :
  forallb is_space a = true -> forallb is_space b = true -> bare body ->
  clean_line (a ++ replicate n QUOTE ++ body ++ replicate m QUOTE ++ b) = body.
Proof.
  intros Ha Hb Hbody. unfold clean_line, str_strip, str_strip_chars.
  replace (a ++ replicate n QUOTE ++ body ++ replicate m QUOTE ++ b)
    with (a ++ (replicate n QUOTE ++ body ++ replicate m QUOTE) ++ b)
    by (by rewrite <- !app_assoc).
  rewrite (strip_by_app is_space) by done.
  rewrite (strip_by_id is_space).
  - rewrite (strip_by_app (in_chars [QUOTE])) by (by apply forallb_replicate).
    apply strip_by_id. by apply bare_quote.
  - apply edge_free_pad; [by apply forallb_replicate ..|by apply bare_space].
Qed.

Lemma clean_line_bare (body : str) : bare body -> clean_line body = body.
Proof.
  intros H. generalize (clean_line_layers [] [] body 0 0 eq_refl eq_refl H).
  simpl. by rewrite app_nil_r.
Qed.

Lemma plain_spec (c : N) :
  plain c = true -> is_space c = false /\ in_chars [QUOTE] c = false.
Proof.
  unfold plain. rewrite in_chars_QUOTE, andb_true_iff, !negb_true_iff. done.
Qed.

Lemma starts_plain_head (s : str) :
  starts_plain s = true -> exists c t, s = c :: t /\ plain c = true.
Proof. destruct s as [|c t]; simpl; [done|]. eauto. Qed.

Lemma ends_plain_last (s : str) :
  ends_plain s = true -> exists t c, s = t ++ [c] /\ plain c = true.
Proof.
  unfold ends_plain. destruct (last s) as [c|] eqn:Hl; [|done].
  apply last_Some in Hl as [t ->]. eauto.
Qed.

(** ** The claims *)

(** C4. Every line that contains a comma is cut at the first comma of the
    cleaned line: the part before it has no comma and, trimmed, is the
    identifier; everything after it, later commas included, is the text,
    also trimmed. Trimmed means that whitespace, and nothing else, is taken
    from both ends until none is left there. *)
Theorem C4_split_at_first_separator (line : str) :
  str_in COMMA line = true ->
  exists pre post,
    clean_line line = pre ++ COMMA :: post /\
    str_in COMMA pre = false /\
    parse_line line =
    inr (Some {| identifier := str_strip pre; text := str_strip post |}) /\
    trim_of pre (str_strip pre) /\
    trim_of post (str_strip post).
Proof.
  intros H. apply str_in_elem_of, clean_line_COMMA in H.
  destruct (split_first_elem_of _ _ H) as (pre & post & Hs).
  apply split_first_Some in Hs as [Hc Hpre].
  exists pre, post. split; [done|]. split; [by apply str_in_not_elem_of|].
  split; [by apply parse_line_split|].
  split; apply str_strip_trim_of.
Qed.

Lemma C4_witness :
  str_in COMMA (str_of "  a , b, c  ") = true /\
  parse_line (str_of "  a , b, c  ") =
  inr (Some {| identifier := str_of "a"; text := str_of "b, c" |}).
Proof.
  split; [reflexivity|].
  destruct (C4_split_at_first_separator (str_of "  a , b, c  ") eq_refl)
    as (pre & post & Hc & Hpre & -> & _).
  change (clean_line (str_of "  a , b, c  ")) with (str_of "a , b, c") in Hc.
  destruct pre as [|x [|y [|z pre]]]; simpl in Hc.
  - discriminate Hc.
  - discriminate Hc.
  - injection Hc as <- <- <-. reflexivity.
  - injection Hc as <- <- <- _. discriminate Hpre.
Defined.

(** C5, as the code has it. Before the comma test and the split, every
    line first loses all whitespace at its two ends and then all quotes at
    its two ends, whatever their number on each side: the line is the
    cleaned line inside a run of quotes on each side inside a run of
    whitespace on each side, no whitespace is left around the quotes and no
    quote at either end of the cleaned line. So a bare line wrapped in any
    number of quote layers, with any whitespace around them, is read as the
    bare line is. *)
Theorem C5_all_quote_layers_removed :
  (forall line : str,
     exists a u v b,
       line = a ++ u ++ clean_line line ++ v ++ b /\
       forallb is_space a = true /\ forallb is_space b = true /\
       forallb (in_chars [QUOTE]) u = true /\
       forallb (in_chars [QUOTE]) v = true /\
       edge_free is_space (u ++ clean_line line ++ v) /\
       edge_free (in_chars [QUOTE]) (clean_line line) /\
       parse_line line = split_entry (clean_line line)) /\
  (forall (a b body : str) (n m : nat),
     forallb is_space a = true -> forallb is_space b = true -> bare body ->
     let line := a ++ replicate n QUOTE ++ body ++ replicate m QUOTE ++ b in
     clean_line line = body /\ parse_line line = parse_line body).
Proof.
  split.
  - intros line. unfold clean_line, str_strip, str_strip_chars.
    destruct (strip_by_split is_space line) as (a & b & H1 & Ha & Hb).
    destruct (strip_by_split (in_chars [QUOTE]) (strip_by is_space line))
      as (u & v & H2 & Hu & Hv).
    exists a, u, v, b.
    split.
    { etrans; [exact H1|]. rewrite H2 at 1. by rewrite <- !app_assoc. }
    do 4 (split; [done|]).
    split; [rewrite <- H2; apply strip_by_edge_free|].
    split; [apply strip_by_edge_free | done].
  - intros a b body n m Ha Hb Hbody line. subst line. split.
    + by apply clean_line_layers.
    + unfold parse_line. by rewrite clean_line_layers, clean_line_bare.
Qed.

Lemma bare_id_text : bare (str_of "id,text").
Proof. split; intros c [= <-]; reflexivity. Qed.

Lemma C5_witness :
  forallb is_space (str_of " ") = true /\
  forallb is_space [NEWLINE] = true /\
  bare (str_of "id,text") /\
  parse_line (str_of " " ++ replicate 2 QUOTE ++ str_of "id,text"
              ++ replicate 1 QUOTE ++ [NEWLINE]) =
  parse_line (str_of "id,text").
Proof.
  split; [reflexivity|]. split; [reflexivity|]. split; [exact bare_id_text|].
  exact (proj2 (proj2 C5_all_quote_layers_removed (str_of " ") [NEWLINE]
                  (str_of "id,text") 2%nat 1%nat eq_refl eq_refl
                  bare_id_text)).
Defined.

(** C5, as stated, fails: a line wrapped in two quote layers loses both,
    where the removal of exactly one layer would keep the inner one. *)
Lemma C5_counterexample :
  let line := [QUOTE; QUOTE] ++ str_of "id,text" ++ [QUOTE; QUOTE] in
  parse_line line =
    inr (Some {| identifier := str_of "id"; text := str_of "text" |}) /\
  spec_parse_line line =
    inr (Some {| identifier := QUOTE :: str_of "id";
                 text := str_of "text" ++ [QUOTE] |}) /\
  parse_line line <> spec_parse_line line.
Proof. split; [reflexivity|]. split; [reflexivity|]. discriminate. Qed.

(** C7, as the code has it. An entry comes from a cleaned line with a comma;
    its identifier is the part before the first comma, trimmed, and its text
    the part after it, trimmed. The identifier is empty exactly when only
    whitespace precedes the first comma, the text exactly when only
    whitespace follows it: such entries are produced. *)
Theorem C7_fields_empty_iff_blank (line : str) (e : PromptEntry) :
  parse_line line = inr (Some e) ->
  exists pre post,
    clean_line line = pre ++ COMMA :: post /\
    str_in COMMA pre = false /\
    trim_of pre (identifier e) /\
    trim_of post (text e) /\
    (identifier e = [] <-> forallb is_space pre = true) /\
    (text e = [] <-> forallb is_space post = true).
Proof.
  intros He.
  destruct (decide (COMMA ∈ clean_line line)) as [H|H].
  - destruct (split_first_elem_of _ _ H) as (pre & post & Hs).
    apply split_first_Some in Hs as [Hc Hpre].
    rewrite (parse_line_split line pre post Hc Hpre) in He.
    injection He as <-. exists pre, post.
    split; [done|]. split; [by apply str_in_not_elem_of|].
    simpl. split; [apply str_strip_trim_of|].
    split; [apply str_strip_trim_of|].
    split; apply strip_by_nil.
  - by rewrite (parse_line_skip line H) in He.
Qed.

Lemma C7_witness :
  parse_line (str_of " , x ") =
    inr (Some {| identifier := []; text := str_of "x" |}) /\
  exists pre post,
    clean_line (str_of " , x ") = pre ++ COMMA :: post /\
    str_in COMMA pre = false /\
    trim_of pre [] /\
    trim_of post (str_of "x") /\
    (@nil N = [] <-> forallb is_space pre = true) /\
    (str_of "x" = [] <-> forallb is_space post = true).
Proof.
  split; [reflexivity|].
  exact (C7_fields_empty_iff_blank (str_of " , x ")
           {| identifier := []; text := str_of "x" |} eq_refl).
Defined.

(** C7, as stated, fails: the line made of a single comma yields an entry
    whose identifier and text are both empty. *)
Lemma C7_counterexample :
  parse_line (str_of ",") = inr (Some {| identifier := []; text := [] |}).
Proof. reflexivity. Qed.

(** C10. Quotes around the individual fields are not interpreted: of a line
    whose two fields are each wrapped in quotes only the first and the last
    quote are removed, so the identifier keeps its closing quote and the
    text its opening quote. *)
Theorem C10_field_quotes_kept (f g : str) :
  starts_plain f = true -> ends_plain g = true -> str_in COMMA f = false ->
  let line := QUOTE :: f ++ [QUOTE; COMMA; QUOTE] ++ g ++ [QUOTE] in
  parse_line line =
    inr (Some {| identifier := f ++ [QUOTE]; text := QUOTE :: g |}) /\
  parse_line line <> inr (Some {| identifier := f; text := g |}).
Proof.
  intros Hf Hg Hc line.
  destruct (starts_plain_head f Hf) as (c & f' & -> & Hpc).
  destruct (ends_plain_last g Hg) as (g' & d & -> & Hpd).
  apply plain_spec in Hpc as [Hc1 Hc2]. apply plain_spec in Hpd as [Hd1 Hd2].
  assert (parse_line line =
          inr (Some {| identifier := (c :: f') ++ [QUOTE];
                       text := QUOTE :: g' ++ [d] |})) as ->.
  { assert (line = [QUOTE] ++ (((c :: f') ++ [QUOTE]) ++ COMMA :: QUOTE :: g' ++ [d])
                          ++ [QUOTE]) as Hline.
    { subst line. repeat (simpl; rewrite <- app_assoc). reflexivity. }
    assert (clean_line line = ((c :: f') ++ [QUOTE]) ++ COMMA :: QUOTE :: g' ++ [d])
      as Hclean.
    { unfold clean_line, str_strip, str_strip_chars. rewrite Hline.
      rewrite (strip_by_id is_space).
      - rewrite (strip_by_app (in_chars [QUOTE])) by reflexivity.
        apply strip_by_id. split; intros x Hx.
        + simpl in Hx. by injection Hx as <-.
        + change (COMMA :: QUOTE :: g' ++ [d])
            with ((COMMA :: QUOTE :: g') ++ [d]) in Hx.
          rewrite app_assoc, last_snoc in Hx. by injection Hx as <-.
      - split; intros x Hx.
        + simpl in Hx. by injection Hx as <-.
        + rewrite app_assoc, last_snoc in Hx. by injection Hx as <-. }
    rewrite (parse_line_split line _ _ Hclean).
    - f_equal. f_equal. f_equal.
      + apply strip_by_id. split; intros x Hx.
        * simpl in Hx. by injection Hx as <-.
        * rewrite last_snoc in Hx. by injection Hx as <-.
      + apply strip_by_id. split; intros x Hx.
        * simpl in Hx. by injection Hx as <-.
        * change (QUOTE :: g' ++ [d]) with ((QUOTE :: g') ++ [d]) in Hx.
          rewrite last_snoc in Hx. by injection Hx as <-.
    - apply str_in_not_elem_of in Hc. rewrite elem_of_app, list_elem_of_singleton.
      intros [H|H]; [done | discriminate H]. }
  split; [done|].
  intros [= H _]. apply (f_equal length) in H.
  rewrite length_app in H. simpl in H. lia.
Qed.

Lemma C10_witness :
  starts_plain (str_of "a") = true /\
  ends_plain (str_of "b") = true /\
  str_in COMMA (str_of "a") = false /\
  parse_line (QUOTE :: str_of "a" ++ [QUOTE; COMMA; QUOTE] ++ str_of "b"
              ++ [QUOTE]) =
    inr (Some {| identifier := str_of "a" ++ [QUOTE];
                 text := QUOTE :: str_of "b" |}).
Proof.
  split; [reflexivity|]. split; [reflexivity|]. split; [reflexivity|].
  exact (proj1 (C10_field_quotes_kept (str_of "a") (str_of "b")
                  eq_refl eq_refl eq_refl)).
Defined.

(** * The script in its world *)

Lemma os_path_join_OUTPUT_DIR (b : str) :
  os_path_join OUTPUT_DIR b =
  if starts_with_sep b then b else OUTPUT_DIR ++ SLASH :: b.
Proof. unfold os_path_join. by destruct (starts_with_sep b). Qed.

Lemma starts_with_sep_app (f s : str) :
  starts_with_sep s = false -> starts_with_sep (f ++ s) = starts_with_sep f.
Proof. intros Hs. by destruct f. Qed.




(** The two paths of one file name are never the same file. *)
Lemma temp_final_distinct (filename : str) :
  temp_path_of filename <> final_path_of filename.
Proof.
  unfold temp_path_of, final_path_of. rewrite !os_path_join_OUTPUT_DIR.
  rewrite !starts_with_sep_app by reflexivity.
  destruct (starts_with_sep filename); intros H.
  - by apply app_inv_head in H.
  - apply app_inv_head in H. injection H as H. by apply app_inv_head in H.
Qed.

(** ** The decimal numeral of a status code *)

Lemma digits_value_acc (d : Decimal.uint) (acc : positive) :
  digits_value (Z.pos acc) (str_of (NilEmpty.string_of_uint d)) =
  Some (Z.pos (Pos.of_uint_acc d acc)).
Proof.
  revert acc. induction d; intros acc; [reflexivity|..];
    cbn [NilEmpty.string_of_uint str_of digits_value Pos.of_uint_acc];
    lazymatch goal with
    | |- context [digit_of ?c] =>
        let v := eval vm_compute in (digit_of c) in
        change (digit_of c) with v; cbv iota beta
    end;
    rewrite <- IHd; f_equal; lia.
Qed.

Lemma digits_value_0 (d : Decimal.uint) :
  digits_value 0 (str_of (NilEmpty.string_of_uint d)) =
  Some (Z.of_N (Pos.of_uint d)).
Proof.
  induction d; [reflexivity | exact IHd | ..];
    cbn [NilEmpty.string_of_uint str_of digits_value Pos.of_uint];
    lazymatch goal with
    | |- context [digit_of ?c] =>
        let v := eval vm_compute in (digit_of c) in
        change (digit_of c) with v; cbv iota beta
    end;
    apply (digits_value_acc d).
Qed.

Lemma digits_value_numeral (d : Decimal.uint) :
  digits_value 0 (str_of (NilZero.string_of_uint d)) =
  Some (Z.of_N (Pos.of_uint d)).
Proof. destruct d; [reflexivity|..]; apply digits_value_0. Qed.

Lemma numeral_shape (d : Decimal.uint) :
  exists c s,
    str_of (NilZero.string_of_uint d) = c :: s /\ (c =? 45) = false.
Proof. destruct d; eexists _, _; (split; [reflexivity|reflexivity]). Qed.

(** The numeral printed for an integer reads back as that integer. *)
Lemma int_of_str_of_int (n : Z) : int_of_str (str_of_int n) = Some n.
Proof.
  unfold str_of_int. destruct n as [|p|p]; [reflexivity|..];
    cbn [Z.to_int NilZero.string_of_int].
  - destruct (numeral_shape (Pos.to_uint p)) as (c & s & Hs & Hc).
    pose proof (digits_value_numeral (Pos.to_uint p)) as Hv.
    rewrite Hs in *. unfold int_of_str. rewrite Hc, Hv.
    by rewrite DecimalPos.Unsigned.of_to.
  - destruct (numeral_shape (Pos.to_uint p)) as (c & s & Hs & Hc).
    pose proof (digits_value_numeral (Pos.to_uint p)) as Hv.
    cbn [str_of]. rewrite Hs in *. unfold int_of_str.
    lazymatch goal with
    | |- context [Ascii.N_of_ascii ?a] => change (Ascii.N_of_ascii a) with 45
    end.
    rewrite N.eqb_refl, Hv.
    by rewrite DecimalPos.Unsigned.of_to.
Qed.

Section Runs.
Context (E : Env).

Lemma convert_to_ulaw_run (input_path output_path : str) (w : World) :
  convert_to_ulaw E input_path output_path w =
  match exec E w (ffmpeg_args input_path output_path) with
  | Some ch =>
      Returns tt {| files := child_files ch;
                    console := console w;
                    sent := sent w;
                    spawned :=
                      spawned w ++ [ffmpeg_args input_path output_path] |}
  | None => Raises FileNotFoundError w
  end.
Proof.
  unfold convert_to_ulaw, bind, subprocess_run, ret.
  change [str_of "ffmpeg"; str_of "-y"; str_of "-i"; input_path;
          str_of "-ar"; str_of "8000"; str_of "-ac"; str_of "1";
          str_of "-f"; str_of "wav"; str_of "-acodec"; str_of "pcm_mulaw";
          output_path]
    with (ffmpeg_args input_path output_path).
  destruct (exec E w _) as [ch|]; [|done].
  simpl. by rewrite app_nil_r.
Qed.

Lemma synthesize_prompt_run (prompt_text filename : str) (w : World) :
  synthesize_prompt E prompt_text filename w =
  let w1 := after_request w (request_of prompt_text) in
  match http_post E w (request_of prompt_text) with
  | None => Raises ConnectionError w1
  | Some resp =>
      if (Response.status_code resp =? 200)%Z then
        (write_file E (temp_path_of filename) (Response.content resp) >>
         convert_to_ulaw E (temp_path_of filename) (final_path_of filename) >>
         os_remove E (temp_path_of filename) >>
         print E (success_notice (final_path_of filename))) w1
      else print E (error_notice filename resp) w1
  end.
Proof.
  unfold synthesize_prompt, requests_post. unfold bind at 1.
  lazymatch goal with
  | |- ?lhs = _ =>
      match lhs with
      | context [http_post E w ?r] => change r with (request_of prompt_text)
      end
  end.
  cbv zeta. destruct (http_post E w (request_of prompt_text)) as [resp|]; [|done].
  by destruct (Response.status_code resp =? 200)%Z.
Qed.

(** Every way [synthesize_prompt] can end. *)
Lemma synthesize_prompt_cases (prompt_text filename : str) (w : World) :
  let temp := temp_path_of filename in
  let final := final_path_of filename in
  let w1 := after_request w (request_of prompt_text) in
  synthesize_prompt E prompt_text filename w =
  match http_post E w (request_of prompt_text) with
  | None => Raises ConnectionError w1
  | Some resp =>
      if (Response.status_code resp =? 200)%Z then
        if str_in NUL temp then Raises ValueError w1
        else
          match open_wb E w1 temp with
          | OpenFails => Raises OSError w1
          | WriteStops n =>
              Raises OSError
                (after_write w1 (realpath E temp)
                   (take n (Response.content resp)))
          | WriteCompletes =>
              let w2 :=
                after_write w1 (realpath E temp) (Response.content resp) in
              match exec E w2 (ffmpeg_args temp final) with
              | None => Raises FileNotFoundError w2
              | Some ch =>
                  let w3 :=
                    {| files := child_files ch;
                       console := console w;
                       sent := sent w ++ [request_of prompt_text];
                       spawned := spawned w ++ [ffmpeg_args temp final] |} in
                  match child_files ch !! realpath E temp with
                  | None => Raises FileNotFoundError w3
                  | Some _ =>
                      let w4 :=
                        with_files w3
                          (delete (realpath E temp) (child_files ch)) in
                      if stdout_accepts E w4 (success_notice final)
                      then Returns tt
                             (with_console w4
                                (console w ++ [success_notice final]))
                      else Raises UnicodeEncodeError w4
                  end
              end
          end
      else
        if stdout_accepts E w1 (error_notice filename resp)
        then Returns tt
               (with_console w1 (console w ++ [error_notice filename resp]))
        else Raises UnicodeEncodeError w1
  end.
Proof.
  intros temp final w1. rewrite synthesize_prompt_run. cbv zeta. fold w1.
  destruct (http_post E w (request_of prompt_text)) as [resp|]; [|done].
  destruct (Response.status_code resp =? 200)%Z; [|done].
  fold temp final. unfold bind at 1. unfold write_file.
  destruct (str_in NUL temp) eqn:Hnul; [done|].
  destruct (open_wb E w1 temp); [done|done|].
  fold (after_write w1 (realpath E temp) (Response.content resp)).
  unfold bind at 1. rewrite convert_to_ulaw_run.
  destruct (exec E _ _) as [ch|]; [|done].
  unfold bind at 1. unfold os_remove. rewrite Hnul.
  cbn [files]. destruct (child_files ch !! realpath E temp); [|done].
  unfold print. cbn [with_files files console sent spawned]. done.
Qed.

Lemma main_loop_cons (line : str) (rest : list str) (w : World) :
  main_loop E (line :: rest) w =
  match process_line E line w with
  | Returns _ w' => main_loop E rest w'
  | Raises e w' => Raises e w'
  end.
Proof. reflexivity. Qed.

Lemma process_line_entry (line : str) (e : PromptEntry) (w : World) :
  parse_line line = inr (Some e) ->
  process_line E line w = synthesize_prompt E (text e) (identifier e) w.
Proof. intros H. unfold process_line. by rewrite H. Qed.

Lemma process_line_skip (line : str) (w : World) :
  parse_line line = inr None -> process_line E line w = Returns tt w.
Proof. intros H. unfold process_line. by rewrite H. Qed.

(** The two shapes of a line for the loop. *)
Lemma parse_line_cases (line : str) :
  parse_line line = inr None \/ exists e, parse_line line = inr (Some e).
Proof. destruct (parse_line_total line) as [[e|] H]; eauto. Qed.

(** What one entry does to the store and to the process log, however its
    processing ends. *)
Lemma synthesize_prompt_effects (prompt_text filename : str) (w : World) :
  let temp := temp_path_of filename in
  let final := final_path_of filename in
  let w1 := after_request w (request_of prompt_text) in
  let w' := final_world (synthesize_prompt E prompt_text filename w) in
  (spawned w' = spawned w /\
   (forall k, k <> realpath E temp -> files w' !! k = files w !! k) /\
   (is_Some (files w !! realpath E temp) ->
    is_Some (files w' !! realpath E temp))) \/
  (exists resp ch,
     http_post E w (request_of prompt_text) = Some resp /\
     Response.status_code resp = 200%Z /\
     str_in NUL temp = false /\
     open_wb E w1 temp = WriteCompletes /\
     exec E (after_write w1 (realpath E temp) (Response.content resp))
       (ffmpeg_args temp final) = Some ch /\
     spawned w' = spawned w ++ [ffmpeg_args temp final] /\
     files w' = delete (realpath E temp) (child_files ch)).
Proof.
  intros temp final w1 w'. subst w'. rewrite synthesize_prompt_cases.
  cbv zeta. fold temp final w1.
  destruct (http_post E w (request_of prompt_text)) as [resp|] eqn:Hp;
    [|by left].
  destruct (Z.eqb_spec (Response.status_code resp) 200) as [Hs|Hs].
  - destruct (str_in NUL temp) eqn:Hnul; [by left|].
    destruct (open_wb E w1 temp) eqn:Ho.
    + by left.
    + left. cbn [final_world after_write with_files files spawned].
      split; [done|]. split.
      * intros k Hk. by rewrite lookup_insert_ne.
      * intros _. rewrite lookup_insert_eq. by eauto.
    + destruct (exec E _ _) as [ch|] eqn:Hx.
      * right. exists resp, ch. do 5 (split; [done|]).
        destruct (child_files ch !! realpath E temp) eqn:Ht.
        -- by destruct (stdout_accepts E _ _).
        -- cbn [final_world files spawned]. split; [done|].
           by rewrite delete_id.
      * left. cbn [final_world after_write with_files files spawned].
        split; [done|]. split.
        -- intros k Hk. by rewrite lookup_insert_ne.
        -- intros _. rewrite lookup_insert_eq. by eauto.
  - left. by destruct (stdout_accepts E _ _).
Qed.

End Runs.

Lemma occurs_in_mid (a sub b : str) : occurs_in sub (a ++ sub ++ b).
Proof. by exists a, b. Qed.

(** ** The claims *)

(** C8. Whatever the two paths, the transcoder executes one fixed argument
    vector around them: overwrite, 8000 Hz, one channel, WAV container,
    mu-law codec. Nothing the child prints reaches the console, and the call
    returns normally whatever the child's exit status; only a child that
    cannot be started makes it raise. *)
Theorem C8_fixed_transcoder_arguments (E : Env) (w : World)
    (input_path output_path : str) :
  let args :=
    [ str_of "ffmpeg"; str_of "-y"; str_of "-i"; input_path;
      str_of "-ar"; str_of "8000"; str_of "-ac"; str_of "1";
      str_of "-f"; str_of "wav"; str_of "-acodec"; str_of "pcm_mulaw";
      output_path ] in
  convert_to_ulaw E input_path output_path w =
  match exec E w args with
  | Some ch =>
      Returns tt {| files := child_files ch;
                    console := console w;
                    sent := sent w;
                    spawned := spawned w ++ [args] |}
  | None => Raises FileNotFoundError w
  end.
Proof. intros args. apply convert_to_ulaw_run. Qed.

(** C6. A line whose cleaned form has no comma yields no entry and no error,
    leaves the world as it is, and the loop goes on with the next line; an
    empty file has no lines and the run ends at once. *)
Theorem C6_lines_without_separator_skipped (E : Env) (w : World) :
  (forall (line : str) (rest : list str),
     str_in COMMA (clean_line line) = false ->
     parse_line line = inr None /\
     process_line E line w = Returns tt w /\
     main_loop E (line :: rest) w = main_loop E rest w) /\
  file_lines [] = [] /\
  main E [] w = Returns tt w.
Proof.
  split; [|done].
  intros line rest H. apply str_in_not_elem_of in H.
  assert (process_line E line w = Returns tt w) as Hp.
  { unfold process_line. by rewrite (parse_line_skip line H). }
  split; [by apply parse_line_skip|]. split; [done|].
  by rewrite main_loop_cons, Hp.
Qed.

Lemma C6_witness :
  str_in COMMA (clean_line (str_of "no separator here")) = false /\
  parse_line (str_of "no separator here") = inr None /\
  process_line E_ok (str_of "no separator here") empty_world =
    Returns tt empty_world.
Proof.
  split; [reflexivity|].
  destruct (proj1 (C6_lines_without_separator_skipped E_ok empty_world)
              (str_of "no separator here") [] eq_refl) as (H1 & H2 & _).
  exact (conj H1 H2).
Defined.

(** C2, as the code has it. When the endpoint answers an entry with a status
    other than 200, no file is written and no process is started. The line
    [[!] Error for identifier: status - text], with the status as its decimal
    numeral, is printed: if the console accepts it, it is the one line added
    to the console and the loop goes on with the remaining lines; if the
    console cannot encode it, nothing is printed and the batch ends there
    with [UnicodeEncodeError]. *)
Theorem C2_refused_synthesis_reported (E : Env) (w : World) (line : str)
    (rest : list str) (e : PromptEntry) (resp : Response.t) :
  parse_line line = inr (Some e) ->
  http_post E w (request_of (text e)) = Some resp ->
  Response.status_code resp <> 200%Z ->
  let w1 := after_request w (request_of (text e)) in
  let numeral := str_of_int (Response.status_code resp) in
  let notice :=
    str_of "[!] Error for " ++ identifier e ++ str_of ": " ++ numeral
    ++ str_of " - " ++ Response.text resp in
  int_of_str numeral = Some (Response.status_code resp) /\
  occurs_in (identifier e) notice /\
  occurs_in numeral notice /\
  occurs_in (Response.text resp) notice /\
  files w1 = files w /\ console w1 = console w /\ spawned w1 = spawned w /\
  (stdout_accepts E w1 notice = true ->
   exists w',
     process_line E line w = Returns tt w' /\
     files w' = files w /\
     spawned w' = spawned w /\
     console w' = console w ++ [notice] /\
     main_loop E (line :: rest) w = main_loop E rest w') /\
  (stdout_accepts E w1 notice = false ->
   process_line E line w = Raises UnicodeEncodeError w1 /\
   main_loop E (line :: rest) w = Raises UnicodeEncodeError w1).
Proof.
  intros He Hp Hs w1 numeral notice.
  assert (process_line E line w =
          if stdout_accepts E w1 notice
          then Returns tt (with_console w1 (console w ++ [notice]))
          else Raises UnicodeEncodeError w1) as Hrun.
  { rewrite (process_line_entry E line e w He), synthesize_prompt_cases, Hp.
    cbv zeta. by rewrite (proj2 (Z.eqb_neq _ _) Hs). }
  split; [apply int_of_str_of_int|].
  split; [apply occurs_in_mid|]. split.
  { subst notice.
    rewrite (app_assoc _ (identifier e)), (app_assoc _ (str_of ": ")).
    apply occurs_in_mid. }
  split.
  { exists (str_of "[!] Error for " ++ identifier e ++ str_of ": "
            ++ numeral ++ str_of " - "), [].
    subst notice. by rewrite app_nil_r, <- !app_assoc. }
  do 3 (split; [done|]). split.
  - intros Hok. rewrite Hok in Hrun. eexists. split; [exact Hrun|].
    do 3 (split; [done|]). by rewrite main_loop_cons, Hrun.
  - intros Hno. rewrite Hno in Hrun. split; [exact Hrun|].
    by rewrite main_loop_cons, Hrun.
Qed.

Lemma C2_witness :
  let e := {| identifier := str_of "greeting"; text := str_of "Hello" |} in
  let notice := str_of "[!] Error for greeting: 401 - unauthorized" in
  int_of_str (str_of "401") = Some 401%Z /\
  occurs_in (str_of "401") notice /\
  exists w',
    process_line E_unauthorized (str_of "greeting,Hello") empty_world =
      Returns tt w' /\
    files w' = files empty_world /\
    spawned w' = spawned empty_world /\
    console w' = console empty_world ++ [notice] /\
    main_loop E_unauthorized [str_of "greeting,Hello"; str_of "bye,Goodbye"]
      empty_world =
    main_loop E_unauthorized [str_of "bye,Goodbye"] w'.
Proof.
  intros e notice.
  destruct (C2_refused_synthesis_reported E_unauthorized empty_world
              (str_of "greeting,Hello") [str_of "bye,Goodbye"] e
              (respond 401 [] (str_of "unauthorized"))
              eq_refl eq_refl ltac:(discriminate))
    as (Hnum & _ & Hocc & _ & _ & _ & _ & Hok & _).
  split; [exact Hnum|]. split; [exact Hocc|]. exact (Hok eq_refl).
Defined.

(** C2, as stated, fails: on a console that encodes ASCII only, the refusal
    of an entry whose identifier is not ASCII produces no console line, and
    the next entry is not processed. *)
Lemma C2_counterexample :
  let line := 233 :: str_of ",one" in
  parse_line line =
    inr (Some {| identifier := [233]; text := str_of "one" |}) /\
  exists w',
    main_loop E_ascii_console [line; str_of "b,two"] empty_world =
      Raises UnicodeEncodeError w' /\
    console w' = [] /\
    sent w' = [request_of (str_of "one")].
Proof.
  intros line. split; [reflexivity|].
  eexists. split; [vm_compute; reflexivity|]. split; reflexivity.
Qed.




Lemma str_in_app (c : N) (a b : str) :
  str_in c (a ++ b) = str_in c a || str_in c b.
Proof. unfold str_in. apply existsb_app. Qed.








(** * The testable examples *)

Example reader_well_formed :
  parse_line (str_of "id,text") =
  inr (Some {| identifier := str_of "id"; text := str_of "text" |}).
Proof. reflexivity. Qed.

Example reader_a_b_c :
  parse_line (str_of "a, b, c") =
  inr (Some {| identifier := str_of "a"; text := str_of "b, c" |}).
Proof. reflexivity. Qed.

Example reader_quoted :
  parse_line (QUOTE :: str_of "id,text" ++ [QUOTE; NEWLINE]) =
  parse_line (str_of "id,text").
Proof. reflexivity. Qed.

Example notice_401 :
  error_notice (str_of "greeting") (respond 401 [] (str_of "unauthorized")) =
  str_of "[!] Error for greeting: 401 - unauthorized".
Proof. reflexivity. Qed.

(** A file of three lines: the first is refused, the second has no comma,
    the third is still processed. *)
Example batch_goes_on :
  main E_unauthorized (str_of "a,one" ++ [NEWLINE] ++ str_of "skipped"
                       ++ [RETURN; NEWLINE] ++ str_of "b,two") empty_world =
  Returns tt
    {| files := ∅;
       console := [ str_of "[!] Error for a: 401 - unauthorized";
                    str_of "[!] Error for b: 401 - unauthorized" ];
       sent := [ request_of (str_of "one"); request_of (str_of "two") ];
       spawned := [] |}.
Proof. vm_compute. reflexivity. Qed.

(** Two runs over the same file and store: the final artifact is
    overwritten and no intermediate stays behind. *)
Example batch_twice :
  exists w1 w2,
    main E_ok (str_of "a,one") empty_world = Returns tt w1 /\
    main E_ok (str_of "a,one") w1 = Returns tt w2 /\
    files w2 = files w1 /\
    files w2 = {[ str_of "output_wav/a.wav" := payload ]}.
Proof.
  eexists _, _. split; [vm_compute; reflexivity|].
  split; [vm_compute; reflexivity|]. split; reflexivity.
Qed.

(** Two identifiers that name one file: the second entry overwrites the
    final artifact of the first. *)
Example same_file_two_spellings :
  final_path_of (str_of "a") <> final_path_of (str_of "./a") /\
  exists w',
    main E_dot (str_of "a,one" ++ [NEWLINE] ++ str_of "./a,two") empty_world =
      Returns tt w' /\
    files w' = {[ str_of "output_wav/a.wav" := [Byte.x02] ]}.
Proof.
  split; [discriminate|].
  eexists. split; [vm_compute; reflexivity | reflexivity].
Qed.

(** An identifier that leaves the output directory by a parent step. *)
Example parent_step_identifier :
  parse_line (str_of "../x,hi") =
    inr (Some {| identifier := str_of "../x"; text := str_of "hi" |}) /\
  final_path_of (str_of "../x") = str_of "output_wav/../x.wav" /\
  ~ directly_inside OUTPUT_DIR (final_path_of (str_of "../x")).
Proof.
  split; [reflexivity|]. split; [reflexivity|].
  intros (name & Hname & _ & _ & _ & Hslash).
  injection Hname as <-. discriminate Hslash.
Qed.

(** The whole script on a missing input file, and on one that stops
    decoding after its first line. *)
Example script_missing_input :
  script E_no_input empty_world = Raises FileNotFoundError empty_world.
Proof. reflexivity. Qed.

Example script_undecodable_input :
  exists w',
    script E_bad_utf8 empty_world = Raises UnicodeDecodeError w' /\
    files w' = {[ str_of "output_wav/a.wav" := payload ]} /\
    length (console w') = 1%nat.
Proof.
  eexists. split; [vm_compute; reflexivity|]. split; reflexivity.
Qed.

(** * Further properties of the reader *)

(** X1. The tuple unpacking of line 88 cannot fail: a cleaned line with a
    comma is always split in exactly two parts, so the reader never
    raises. *)
Theorem reader_never_raises (line : str) :
  (forall e, parse_line line <> inl e) /\
  (str_in COMMA (clean_line line) = true ->
   exists name text, str_split1 COMMA (clean_line line) = [name; text]).
Proof.
  split.
  - intros e. destruct (parse_line_total line) as [r ->]. discriminate.
  - intros H. apply str_in_elem_of, split_first_elem_of in H as (a & b & H).
    exists a, b. unfold str_split1. by rewrite H.
Qed.

Lemma reader_never_raises_witness :
  str_in COMMA (clean_line (str_of "a, b, c")) = true /\
  exists name text,
    str_split1 COMMA (clean_line (str_of "a, b, c")) = [name; text].
Proof.
  split; [reflexivity|].
  exact (proj2 (reader_never_raises (str_of "a, b, c")) eq_refl).
Defined.

(** X2. Both fields of every entry are trimmed: neither begins or ends with
    whitespace, and trimming them again changes nothing. The identifier
    never contains a comma. *)
Theorem entry_fields_trimmed (line : str) (e : PromptEntry) :
  parse_line line = inr (Some e) ->
  edge_free is_space (identifier e) /\
  edge_free is_space (text e) /\
  str_strip (identifier e) = identifier e /\
  str_strip (text e) = text e /\
  str_in COMMA (identifier e) = false.
Proof.
  intros He.
  destruct (decide (COMMA ∈ clean_line line)) as [H|H].
  - destruct (split_first_elem_of _ _ H) as (pre & post & Hs).
    apply split_first_Some in Hs as [Hc Hpre].
    rewrite (parse_line_split line pre post Hc Hpre) in He.
    injection He as <-. simpl. unfold str_strip.
    split; [apply strip_by_edge_free|]. split; [apply strip_by_edge_free|].
    split; [apply strip_by_idem|]. split; [apply strip_by_idem|].
    apply str_in_not_elem_of. intros Hin. apply Hpre.
    by apply (elem_of_strip_by is_space COMMA pre).
  - by rewrite (parse_line_skip line H) in He.
Qed.

Lemma entry_fields_trimmed_witness :
  parse_line (str_of "  a  ,  b, c  ") =
    inr (Some {| identifier := str_of "a"; text := str_of "b, c" |}) /\
  str_strip (str_of "a") = str_of "a" /\
  str_in COMMA (str_of "a") = false.
Proof.
  split; [reflexivity|].
  destruct (entry_fields_trimmed (str_of "  a  ,  b, c  ")
              {| identifier := str_of "a"; text := str_of "b, c" |} eq_refl)
    as (_ & _ & H1 & _ & H2).
  exact (conj H1 H2).
Defined.

(** X3. Whitespace around a line, its terminator included, has no effect on
    what the reader makes of it. *)
Theorem surrounding_whitespace_ignored (a line b : str) :
  forallb is_space a = true -> forallb is_space b = true ->
  clean_line (a ++ line ++ b) = clean_line line /\
  parse_line (a ++ line ++ b) = parse_line line.
Proof.
  intros Ha Hb.
  assert (clean_line (a ++ line ++ b) = clean_line line) as H.
  { unfold clean_line, str_strip. by rewrite strip_by_app. }
  split; [done|]. unfold parse_line. by rewrite H.
Qed.

Lemma surrounding_whitespace_ignored_witness :
  forallb is_space (str_of "  ") = true /\
  forallb is_space [RETURN; NEWLINE] = true /\
  parse_line (str_of "  " ++ str_of "id,text" ++ [RETURN; NEWLINE]) =
  parse_line (str_of "id,text").
Proof.
  split; [reflexivity|]. split; [reflexivity|].
  exact (proj2 (surrounding_whitespace_ignored (str_of "  ") (str_of "id,text")
                  [RETURN; NEWLINE] eq_refl eq_refl)).
Defined.

(** X4. Cleaning only removes from the two ends, and only whitespace and
    quotes: the line is the cleaned line between two runs of such
    characters, and the cleaned line has no quote at either end. *)
Theorem clean_line_shape (line : str) :
  (exists a b,
     line = a ++ clean_line line ++ b /\
     forallb space_or_quote a = true /\
     forallb space_or_quote b = true) /\
  edge_free (in_chars [QUOTE]) (clean_line line).
Proof.
  split; [|apply strip_by_edge_free].
  unfold clean_line, str_strip, str_strip_chars.
  destruct (strip_by_split is_space line) as (a1 & b1 & H1 & Ha1 & Hb1).
  destruct (strip_by_split (in_chars [QUOTE]) (strip_by is_space line))
    as (a2 & b2 & H2 & Ha2 & Hb2).
  exists (a1 ++ a2), (b2 ++ b1). split.
  - rewrite H1 at 1. rewrite H2 at 1. by rewrite <- !app_assoc.
  - split; apply forallb_app_true;
      (eapply forallb_weaken; [|eassumption]);
      intros c Hc; unfold space_or_quote; rewrite Hc;
      by rewrite ?orb_true_r.
Qed.

(** X5. Whether a line is skipped is decided by the raw line: it is skipped
    exactly when it has no comma at all. *)
Theorem skipped_iff_no_comma (line : str) :
  parse_line line = inr None <-> str_in COMMA line = false.
Proof.
  rewrite str_in_not_elem_of, <- clean_line_COMMA. split.
  - intros Hn Hin.
    destruct (split_first_elem_of _ _ Hin) as (pre & post & Hs).
    apply split_first_Some in Hs as [Hc Hpre].
    by rewrite (parse_line_split line pre post Hc Hpre) in Hn.
  - apply parse_line_skip.
Qed.

(** X6. Reading back a written record: for a trimmed identifier without a
    comma and a trimmed text, the line [identifier,text], when it neither
    begins nor ends with a quote, is read as exactly that entry, whatever
    whitespace surrounds it. *)
Theorem reader_round_trip (a b i t : str) :
  forallb is_space a = true -> forallb is_space b = true ->
  str_in COMMA i = false ->
  str_strip i = i -> str_strip t = t ->
  bare (i ++ COMMA :: t) ->
  parse_line (a ++ (i ++ COMMA :: t) ++ b) =
  inr (Some {| identifier := i; text := t |}).
Proof.
  intros Ha Hb Hc Hi Ht Hbare.
  rewrite (proj2 (surrounding_whitespace_ignored a _ b Ha Hb)).
  rewrite (parse_line_split (i ++ COMMA :: t) i t).
  - by rewrite Hi, Ht.
  - by apply clean_line_bare.
  - by apply str_in_not_elem_of.
Qed.

Lemma bare_greeting : bare (str_of "greeting" ++ COMMA :: str_of "Hello, world").
Proof. split; intros c [= <-]; reflexivity. Qed.

Lemma reader_round_trip_witness :
  parse_line ([] ++ (str_of "greeting" ++ COMMA :: str_of "Hello, world")
              ++ [NEWLINE]) =
  inr (Some {| identifier := str_of "greeting";
               text := str_of "Hello, world" |}).
Proof.
  exact (reader_round_trip [] [NEWLINE] (str_of "greeting")
           (str_of "Hello, world") eq_refl eq_refl eq_refl eq_refl eq_refl
           bare_greeting).
Defined.

(** X7. Both trimming operations of line 83 are idempotent, and each leaves
    nothing of what it removes at either end. *)
Theorem strip_idempotent (s : str) :
  str_strip (str_strip s) = str_strip s /\
  str_strip_chars [QUOTE] (str_strip_chars [QUOTE] s) =
    str_strip_chars [QUOTE] s /\
  edge_free is_space (str_strip s) /\
  edge_free (in_chars [QUOTE]) (str_strip_chars [QUOTE] s).
Proof.
  unfold str_strip, str_strip_chars.
  split; [apply strip_by_idem|]. split; [apply strip_by_idem|].
  split; apply strip_by_edge_free.
Qed.

(** * Further properties of the batch *)

Lemma output_of_ffmpeg_args (i o : str) : output_of (ffmpeg_args i o) = o.
Proof. reflexivity. Qed.

(** A null character is in the intermediate path exactly when it is in the
    identifier. *)
Lemma temp_path_of_NUL (filename : str) :
  str_in NUL (temp_path_of filename) = str_in NUL filename.
Proof.
  unfold temp_path_of. rewrite os_path_join_OUTPUT_DIR.
  destruct (starts_with_sep _).
  - rewrite str_in_app. apply orb_false_r.
  - rewrite str_in_app.
    change (SLASH :: filename ++ str_of "_temp.wav")
      with ([SLASH] ++ filename ++ str_of "_temp.wav").
    rewrite !str_in_app. simpl. apply orb_false_r.
Qed.

(** X9. A request that gets no response is not caught: the batch stops at
    that entry with the store as it was, and no later line is processed. *)
Theorem network_error_aborts_batch (E : Env) (w : World) (line : str)
    (rest : list str) (e : PromptEntry) :
  parse_line line = inr (Some e) ->
  http_post E w (request_of (text e)) = None ->
  exists w',
    main_loop E (line :: rest) w = Raises ConnectionError w' /\
    files w' = files w /\
    console w' = console w /\
    spawned w' = spawned w /\
    sent w' = sent w ++ [request_of (text e)].
Proof.
  intros He Hp. eexists. split.
  - rewrite main_loop_cons, (process_line_entry E line e w He).
    rewrite synthesize_prompt_cases, Hp. reflexivity.
  - done.
Qed.

Lemma network_error_aborts_batch_witness :
  exists w',
    main_loop E_offline [str_of "a,one"; str_of "b,two"] empty_world =
      Raises ConnectionError w' /\
    files w' = files empty_world /\
    console w' = console empty_world /\
    spawned w' = spawned empty_world /\
    sent w' = sent empty_world ++ [request_of (str_of "one")].
Proof.
  exact (network_error_aborts_batch E_offline empty_world (str_of "a,one")
           [str_of "b,two"]
           {| identifier := str_of "a"; text := str_of "one" |}
           eq_refl eq_refl).
Defined.



(** X11. When the transcoder cannot be started, or returns having removed
    its own input, the batch stops at that entry without a notice for it; in
    the first case the intermediate stays in the store. *)
Theorem transcoder_trouble_aborts_batch (E : Env) (w : World)
    (line : str) (rest : list str) (e : PromptEntry) (resp : Response.t) :
  let temp := temp_path_of (identifier e) in
  let final := final_path_of (identifier e) in
  let w2 := after_write (after_request w (request_of (text e)))
              (realpath E temp) (Response.content resp) in
  parse_line line = inr (Some e) ->
  http_post E w (request_of (text e)) = Some resp ->
  Response.status_code resp = 200%Z ->
  str_in NUL (identifier e) = false ->
  open_wb E (after_request w (request_of (text e))) temp = WriteCompletes ->
  (exec E w2 (ffmpeg_args temp final) = None ->
   main_loop E (line :: rest) w = Raises FileNotFoundError w2 /\
   files w2 !! realpath E temp = Some (Response.content resp) /\
   console w2 = console w) /\
  (forall ch,
     exec E w2 (ffmpeg_args temp final) = Some ch ->
     child_files ch !! realpath E temp = None ->
     exists w',
       main_loop E (line :: rest) w = Raises FileNotFoundError w' /\
       files w' = child_files ch /\
       console w' = console w).
Proof.
  intros temp final w2 He Hp Hs Hn Ho.
  pose proof (synthesize_prompt_cases E (text e) (identifier e) w) as Hc.
  cbv zeta in Hc. rewrite Hp, Hs, temp_path_of_NUL, Hn in Hc.
  simpl Z.eqb in Hc. cbv iota in Hc. fold temp final in Hc.
  rewrite Ho in Hc. fold w2 in Hc.
  split.
  - intros Hx. rewrite Hx in Hc. split.
    + by rewrite main_loop_cons, (process_line_entry E line e w He), Hc.
    + split; [apply lookup_insert_eq | done].
  - intros ch Hx Ht. rewrite Hx, Ht in Hc. eexists. split.
    + rewrite main_loop_cons, (process_line_entry E line e w He), Hc.
      reflexivity.
    + done.
Qed.

Lemma transcoder_trouble_aborts_batch_witness :
  (exists w2,
     main_loop E_no_ffmpeg [str_of "a,one"; str_of "b,two"] empty_world =
       Raises FileNotFoundError w2 /\
     files w2 !! temp_path_of (str_of "a") = Some payload) /\
  (exists w',
     main_loop E_moving [str_of "a,one"; str_of "b,two"] empty_world =
       Raises FileNotFoundError w' /\
     files w' !! final_path_of (str_of "a") = Some payload /\
     console w' = []).
Proof.
  split.
  - destruct (proj1 (transcoder_trouble_aborts_batch E_no_ffmpeg empty_world
                       (str_of "a,one") [str_of "b,two"]
                       {| identifier := str_of "a"; text := str_of "one" |}
                       (respond 200 payload [])
                       eq_refl eq_refl eq_refl eq_refl eq_refl)
                eq_refl) as (Hrun & Ht & _).
    eexists. split; [exact Hrun | exact Ht].
  - destruct (proj2 (transcoder_trouble_aborts_batch E_moving empty_world
                       (str_of "a,one") [str_of "b,two"]
                       {| identifier := str_of "a"; text := str_of "one" |}
                       (respond 200 payload [])
                       eq_refl eq_refl eq_refl eq_refl eq_refl)
                _ eq_refl eq_refl) as (w' & Hrun & Hf & Hc).
    exists w'. split; [exact Hrun|]. split; [|exact Hc].
    rewrite Hf. reflexivity.
Defined.

Section BatchInvariants.
Context (E : Env).

Lemma synthesize_prompt_returns (prompt_text filename : str) (w w' : World) :
  synthesize_prompt E prompt_text filename w = Returns tt w' ->
  sent w' = sent w ++ [request_of prompt_text] /\
  exists notice, console w' = console w ++ [notice].
Proof.
  rewrite synthesize_prompt_cases. cbv zeta.
  destruct (http_post E w _) as [resp|]; [|done].
  destruct (_ =? _)%Z.
  - destruct (str_in NUL _); [done|].
    destruct (open_wb E _ _); [done|done|].
    destruct (exec E _ _) as [ch|]; [|done].
    destruct (child_files ch !! _); [|done].
    destruct (stdout_accepts E _ _); [|done].
    intros [= <-]. simpl. eauto.
  - destruct (stdout_accepts E _ _); [|done].
    intros [= <-]. simpl. eauto.
Qed.

End BatchInvariants.

(** X13. A batch that returns has issued exactly one request per entry, in
    line order, each carrying that entry's text, and has printed exactly one
    console line per entry after what was on the console before. *)
Theorem batch_one_request_and_notice_per_entry (E : Env) (lines : list str)
    (w w' : World) :
  main_loop E lines w = Returns tt w' ->
  sent w' = sent w ++ map (fun e => request_of (text e)) (entries_of lines) /\
  console w `prefix_of` console w' /\
  length (console w') = (length (console w) + length (entries_of lines))%nat.
Proof.
  revert w. induction lines as [|line rest IH]; intros w.
  - intros [= <-]. simpl. rewrite app_nil_r. split; [done|]. split; [done|lia].
  - rewrite main_loop_cons. simpl entries_of.
    destruct (parse_line_cases line) as [Hn|[en He]].
    + rewrite (process_line_skip E line w Hn), Hn. apply IH.
    + rewrite (process_line_entry E line en w He), He.
      destruct (synthesize_prompt E _ _ w) as [[] w1|e1 w1] eqn:Hrun; [|done].
      intros Hrest. apply IH in Hrest as (Hs & Hp & Hl).
      apply synthesize_prompt_returns in Hrun as (Hs1 & notice & Hc1).
      rewrite Hs, Hs1, Hl, Hc1, length_app. simpl.
      split; [by rewrite <- app_assoc|]. split; [|lia].
      rewrite Hc1 in Hp. by eapply prefix_app_l.
Qed.

Lemma batch_one_request_and_notice_per_entry_witness :
  exists w',
    main_loop E_unauthorized
      [str_of "a,one"; str_of "skipped"; str_of "b,two"] empty_world =
      Returns tt w' /\
    sent w' = [request_of (str_of "one"); request_of (str_of "two")] /\
    length (console w') = 2%nat.
Proof.
  eexists.
  assert (main_loop E_unauthorized
            [str_of "a,one"; str_of "skipped"; str_of "b,two"] empty_world =
          Returns tt
            (final_world
               (main_loop E_unauthorized
                  [str_of "a,one"; str_of "skipped"; str_of "b,two"]
                  empty_world))) as Hrun by (vm_compute; reflexivity).
  split; [exact Hrun|].
  destruct (batch_one_request_and_notice_per_entry E_unauthorized _ _ _ Hrun)
    as (Hs & _ & Hl).
  split; [exact Hs | exact Hl].
Defined.

(** * Further properties of the store and the paths *)

Lemma OUTPUT_DIR_relative (b c : str) :
  starts_with_sep b = true -> b <> OUTPUT_DIR ++ c.
Proof. destruct b as [|x b]; [done|]. simpl. intros Hx [= -> _]. done. Qed.

(** Joining onto the output directory loses nothing of the joined part. *)
Lemma os_path_join_OUTPUT_DIR_inj (b1 b2 : str) :
  os_path_join OUTPUT_DIR b1 = os_path_join OUTPUT_DIR b2 -> b1 = b2.
Proof.
  rewrite !os_path_join_OUTPUT_DIR.
  destruct (starts_with_sep b1) eqn:H1, (starts_with_sep b2) eqn:H2; intros H.
  - done.
  - by apply OUTPUT_DIR_relative in H.
  - symmetry in H. by apply OUTPUT_DIR_relative in H.
  - apply app_inv_head in H. by injection H.
Qed.

(** X16. Different identifiers never give the same final path string, nor
    the same intermediate path string: joining onto the output directory
    loses nothing of the identifier. (Different path strings may still name
    one file.) *)
Theorem artifact_paths_injective (f g : str) :
  f <> g ->
  final_path_of f <> final_path_of g /\ temp_path_of f <> temp_path_of g.
Proof.
  intros Hne. split; intros H; apply Hne;
    apply os_path_join_OUTPUT_DIR_inj in H; by apply app_inv_tail in H.
Qed.

Lemma artifact_paths_injective_witness :
  str_of "a" <> str_of "/a" /\
  final_path_of (str_of "a") <> final_path_of (str_of "/a") /\
  temp_path_of (str_of "a") <> temp_path_of (str_of "/a").
Proof.
  assert (str_of "a" <> str_of "/a") as Hne by discriminate.
  exact (conj Hne (artifact_paths_injective (str_of "a") (str_of "/a") Hne)).
Defined.

Lemma final_path_of_temp_name (f : str) :
  final_path_of (f ++ str_of "_temp") = temp_path_of f.
Proof. unfold temp_path_of, final_path_of. by rewrite <- app_assoc. Qed.

(** X17. The intermediate path of one identifier is the final path of
    another exactly when the other is the first followed by [_temp]; in
    particular the two paths of one identifier are always different. *)
Theorem intermediate_final_collision (f g : str) :
  (temp_path_of f = final_path_of g <-> g = f ++ str_of "_temp") /\
  temp_path_of f <> final_path_of f.
Proof.
  assert (temp_path_of f = final_path_of g <-> g = f ++ str_of "_temp") as Hiff.
  { split.
    - unfold temp_path_of, final_path_of.
      intros H. apply os_path_join_OUTPUT_DIR_inj in H.
      change (str_of "_temp.wav") with (str_of "_temp" ++ str_of ".wav") in H.
      rewrite app_assoc in H. by apply app_inv_tail in H.
    - intros ->. unfold temp_path_of, final_path_of. by rewrite <- app_assoc. }
  split; [exact Hiff|]. apply temp_final_distinct.
Qed.

(** X18. Processing an accepted entry removes whatever the store holds at the
    final path of the identifier extended by [_temp]: that path is the
    entry's own intermediate. *)
Theorem accepted_entry_removes_temp_named_artifact (E : Env) (w w' : World)
    (prompt_text filename : str) (resp : Response.t) :
  http_post E w (request_of prompt_text) = Some resp ->
  Response.status_code resp = 200%Z ->
  synthesize_prompt E prompt_text filename w = Returns tt w' ->
  files w' !! realpath E (final_path_of (filename ++ str_of "_temp")) = None.
Proof.
  intros Hp Hs.
  rewrite final_path_of_temp_name.
  rewrite synthesize_prompt_cases, Hp, Hs. cbv zeta. simpl Z.eqb. cbv iota.
  destruct (str_in NUL _); [done|].
  destruct (open_wb E _ _); [done|done|].
  destruct (exec E _ _) as [ch|]; [|done].
  destruct (child_files ch !! _); [|done].
  destruct (stdout_accepts E _ _); [|done].
  intros [= <-]. apply lookup_delete_eq.
Qed.

Lemma accepted_entry_removes_temp_named_artifact_witness :
  let w1 := final_world (main_loop E_ok [str_of "a_temp,one"] empty_world) in
  let w2 := final_world (synthesize_prompt E_ok (str_of "two") (str_of "a") w1) in
  files w1 !! str_of "output_wav/a_temp.wav" = Some payload /\
  synthesize_prompt E_ok (str_of "two") (str_of "a") w1 = Returns tt w2 /\
  files w2 !! str_of "output_wav/a_temp.wav" = None.
Proof.
  intros w1 w2.
  assert (synthesize_prompt E_ok (str_of "two") (str_of "a") w1 = Returns tt w2)
    as Hrun by (vm_compute; reflexivity).
  split; [reflexivity|]. split; [exact Hrun|].
  exact (accepted_entry_removes_temp_named_artifact E_ok w1 w2 (str_of "two")
           (str_of "a") (respond 200 payload []) eq_refl eq_refl Hrun).
Defined.

Section Frame.
Context (E : Env).

Lemma synthesize_prompt_frame (prompt_text filename : str) (w : World)
    (k : str) :
  writes_only_destination E ->
  k <> realpath E (temp_path_of filename) ->
  k <> realpath E (final_path_of filename) ->
  files (final_world (synthesize_prompt E prompt_text filename w)) !! k =
  files w !! k.
Proof.
  intros Hw Ht Hf.
  destruct (synthesize_prompt_effects E prompt_text filename w)
    as [(_ & H & _)|(resp & ch & _ & _ & _ & _ & Hx & _ & Hfiles)].
  - by apply H.
  - rewrite Hfiles, lookup_delete_ne by done.
    rewrite (Hw _ _ _ Hx k) by (by rewrite output_of_ffmpeg_args).
    simpl. by apply lookup_insert_ne.
Qed.


End Frame.




(** X15. With a transcoder that changes no file but its destination, a batch
    changes the store at most at the files that the intermediate and final
    paths of its entries name, however it ends: every other file holds what
    it held before. *)
Theorem batch_touches_only_entry_paths (E : Env) (lines : list str)
    (w : World) (k : str) :
  writes_only_destination E ->
  (forall e, e ∈ entries_of lines ->
     k <> realpath E (temp_path_of (identifier e)) /\
     k <> realpath E (final_path_of (identifier e))) ->
  files (final_world (main_loop E lines w)) !! k = files w !! k.
Proof.
  intros Hw. revert w. induction lines as [|line rest IH]; intros w Hp; [done|].
  rewrite main_loop_cons. simpl entries_of in Hp.
  destruct (parse_line_cases line) as [Hn|[e He]].
  - rewrite (process_line_skip E line w Hn). rewrite Hn in Hp. by apply IH.
  - rewrite (process_line_entry E line e w He). rewrite He in Hp.
    destruct (Hp e) as [Ht Hf]; [by left|].
    pose proof (synthesize_prompt_frame E (text e) (identifier e) w k
                  Hw Ht Hf) as Hstep.
    destruct (synthesize_prompt E _ _ w) as [[] w1|e1 w1]; simpl in Hstep.
    + rewrite IH; [done|]. intros e' He'. apply Hp. by right.
    + done.
Qed.

Lemma E_dot_writes_only_destination : writes_only_destination E_dot.
Proof.
  intros w args ch [= <-] k Hk. cbn [child_files E_dot realpath] in *.
  by apply lookup_insert_ne.
Qed.

Lemma batch_touches_only_entry_paths_witness :
  writes_only_destination E_dot /\
  files (final_world (main_loop E_dot [str_of "./a,two"] stale_world))
    !! str_of "output_wav/b.wav" =
  files stale_world !! str_of "output_wav/b.wav".
Proof.
  split; [exact E_dot_writes_only_destination|].
  apply (batch_touches_only_entry_paths E_dot [str_of "./a,two"] stale_world
           (str_of "output_wav/b.wav") E_dot_writes_only_destination).
  intros e He. apply list_elem_of_singleton in He as ->.
  split; discriminate.
Defined.

(** X20. When the endpoint refuses every request and the console accepts
    every line, the batch runs to its end; the store is as it was, no
    process was started, and the console has one more line per entry. *)
Theorem refused_batch_changes_nothing (E : Env) (lines : list str)
    (w : World) :
  always_refuses E -> console_accepts_all E ->
  exists w',
    main_loop E lines w = Returns tt w' /\
    files w' = files w /\
    spawned w' = spawned w /\
    length (console w') = (length (console w) + length (entries_of lines))%nat.
Proof.
  intros Hr Ha. revert w. induction lines as [|line rest IH]; intros w.
  - exists w. simpl. split; [done|]. split; [done|]. split; [done|lia].
  - rewrite main_loop_cons. simpl entries_of.
    destruct (parse_line_cases line) as [Hn|[e He]].
    + rewrite (process_line_skip E line w Hn), Hn. apply IH.
    + rewrite (process_line_entry E line e w He), He.
      destruct (Hr w (request_of (text e))) as (resp & Hp & Hs).
      rewrite synthesize_prompt_cases, Hp. cbv zeta.
      rewrite (proj2 (Z.eqb_neq _ _) Hs), Ha.
      destruct (IH (with_console (after_request w (request_of (text e)))
                      (console w ++ [error_notice (identifier e) resp])))
        as (w' & Hrun & Hf & Hsp & Hl).
      exists w'. split; [exact Hrun|]. split; [exact Hf|]. split; [exact Hsp|].
      rewrite Hl. simpl. rewrite length_app. simpl. lia.
Qed.

Lemma E_unauthorized_always_refuses : always_refuses E_unauthorized.
Proof. intros w r. eexists. split; [reflexivity | discriminate]. Qed.

Lemma refused_batch_changes_nothing_witness :
  always_refuses E_unauthorized /\
  console_accepts_all E_unauthorized /\
  exists w',
    main_loop E_unauthorized [str_of "a,one"; str_of "b,two"] stale_world =
      Returns tt w' /\
    files w' = files stale_world /\
    spawned w' = spawned stale_world.
Proof.
  split; [exact E_unauthorized_always_refuses|].
  split; [by intros w s|].
  destruct (refused_batch_changes_nothing E_unauthorized
              [str_of "a,one"; str_of "b,two"] stale_world
              E_unauthorized_always_refuses (fun _ _ => eq_refl))
    as (w' & Hrun & Hf & Hs & _).
  exists w'. split; [exact Hrun|]. split; [exact Hf | exact Hs].
Defined.
